(** * Asset-transfer chaincode (atcc.go): a shallow embedding and its properties

    The chaincode keeps [Asset] records in the Fabric world state, one per
    key, serialized with Go's [encoding/json].  The embedding has three
    layers:

    - [utf8] and [json]: the part of Go's [unicode/utf8] and [encoding/json]
      that [json.Marshal] and [json.Unmarshal] run on the [Asset] struct;
    - [Stub]: the world state behind [ctx.GetStub()], whose calls may each
      return an error;
    - the contract functions of atcc.go, written with explicit state passing.

    A Go [string] and a Go [[]byte] are both sequences of 8-bit bytes; both
    are modelled by Rocq's [string], whose characters are 8-bit. *)

From Stdlib Require Import ZArith NArith Ascii String List Bool Lia.
From Stdlib Require Import Decimal DecimalFacts DecimalPos DecimalZ DecimalString.
From stdpp Require Import base option gmap strings sorting.

Local Open Scope string_scope.

(** ** unicode/utf8 *)

Module utf8.

Definition byte_val (c : ascii) : N := N_of_ascii c.

(** [utf8.RuneSelf]: bytes below it are single-byte runes. *)
Definition RuneSelf : N := 128.

Definition between (lo hi : N) (c : ascii) : bool :=
  ((lo <=? byte_val c) && (byte_val c <=? hi))%N.

Definition is_ascii (c : ascii) : bool := (byte_val c <? RuneSelf)%N.

(** A continuation byte, 0x80..0xBF. *)
Definition is_cont (c : ascii) : bool := between 128 191 c.

(** The accept range of the second byte, which depends on the first
    (the [acceptRanges] table): it excludes overlong encodings, the
    surrogates and code points above U+10FFFF. *)
Definition second_ok (c0 c1 : ascii) : bool :=
  let b := byte_val c0 in
  if (b =? 224)%N then between 160 191 c1
  else if (b =? 237)%N then between 128 159 c1
  else if (b =? 240)%N then between 144 191 c1
  else if (b =? 244)%N then between 128 143 c1
  else is_cont c1.

(** The size that [utf8.DecodeRuneInString] reports for the rune at the head
    of [s]: [Some n] for a well-formed encoding on [n] bytes, [None] where Go
    returns [(RuneError, 1)]. *)
Definition rune_len (s : string) : option nat :=
  match s with
  | EmptyString => None
  | String c0 r =>
      if is_ascii c0 then Some 1%nat
      else if between 194 223 c0 then
        match r with
        | String c1 _ => if second_ok c0 c1 then Some 2%nat else None
        | _ => None
        end
      else if between 224 239 c0 then
        match r with
        | String c1 (String c2 _) =>
            if second_ok c0 c1 && is_cont c2 then Some 3%nat else None
        | _ => None
        end
      else if between 240 244 c0 then
        match r with
        | String c1 (String c2 (String c3 _)) =>
            if second_ok c0 c1 && is_cont c2 && is_cont c3 then Some 4%nat
            else None
        | _ => None
        end
      else None
  end.

(** The encoding of U+FFFD, the replacement rune [utf8.RuneError]. *)
Definition replacement : string :=
  String "239" (String "191" (String "189" EmptyString)).

(** [strings.ToValidUTF8 s "�"] applied byte by byte, which is what a
    string becomes through [json.Marshal]: every byte that does not start a
    well-formed rune is replaced by U+FFFD. *)
Fixpoint coerce (s : string) : string :=
  match s with
  | EmptyString => EmptyString
  | String c r =>
      match rune_len s, r with
      | Some 1%nat, _ => String c (coerce r)
      | Some 2%nat, String c1 r1 => String c (String c1 (coerce r1))
      | Some 3%nat, String c1 (String c2 r2) =>
          String c (String c1 (String c2 (coerce r2)))
      | Some 4%nat, String c1 (String c2 (String c3 r3)) =>
          String c (String c1 (String c2 (String c3 (coerce r3))))
      | _, _ => replacement ++ coerce r
      end
  end.

(** [utf8.ValidString]. *)
Fixpoint valid (s : string) : bool :=
  match s with
  | EmptyString => true
  | String c r =>
      match rune_len s, r with
      | Some 1%nat, _ => valid r
      | Some 2%nat, String c1 r1 => valid r1
      | Some 3%nat, String c1 (String c2 r2) => valid r2
      | Some 4%nat, String c1 (String c2 (String c3 r3)) => valid r3
      | _, _ => false
      end
  end.

End utf8.

(** ** The Asset struct (atcc.go, lines 16-22)

    Go's [int] is taken as 64 bits; the fields are kept as [Z] and
    [is_int] says that a value fits. *)

Record Asset := mkAsset {
  AppraisedValue : Z;
  Color : string;
  ID : string;
  Owner : string;
  Size : Z
}.

Definition minInt : Z := - 2 ^ 63.
Definition maxInt : Z := 2 ^ 63 - 1.
Definition is_int (z : Z) : Prop := (minInt <= z <= maxInt)%Z.
Definition is_intb (z : Z) : bool := ((minInt <=? z) && (z <=? maxInt))%Z.

(** The zero value of the struct, what [var asset Asset] declares. *)
Definition zeroAsset : Asset := mkAsset 0 EmptyString EmptyString EmptyString 0.

(** ** encoding/json, as far as the Asset struct goes *)

Module json.

Import utf8.

Definition dquote : ascii := "034"%char.
Definition backslash : ascii := "092"%char.

Definition hex_digit (n : N) : ascii :=
  match n with
  | 0 => "0" | 1 => "1" | 2 => "2" | 3 => "3" | 4 => "4" | 5 => "5"
  | 6 => "6" | 7 => "7" | 8 => "8" | 9 => "9" | 10 => "a" | 11 => "b"
  | 12 => "c" | 13 => "d" | 14 => "e" | _ => "f"
  end%N%char.

(** [htmlSafeSet]: the ASCII bytes written as they are.  [json.Marshal]
    escapes HTML, so besides the quote and the backslash the bytes
    [<], [>] and [&] are escaped too. *)
Definition htmlSafe (c : ascii) : bool :=
  match c with
  | "034" | "092" | "<" | ">" | "&" => false
  | _ => (32 <=? byte_val c)%N
  end%char.

(** The escape of one ASCII byte in [appendString]. *)
Definition escape_ascii (c : ascii) : string :=
  if htmlSafe c then String c EmptyString
  else
    match c with
    | "034" | "092" => String backslash (String c EmptyString)
    | "008" => String backslash "b"
    | "012" => String backslash "f"
    | "010" => String backslash "n"
    | "013" => String backslash "r"
    | "009" => String backslash "t"
    | _ =>
        String backslash
          (String "u" (String "0" (String "0"
            (String (hex_digit (byte_val c / 16))
              (String (hex_digit (byte_val c mod 16)) EmptyString)))))
    end%char.

(** The body of [appendString src] with [escapeHTML] set, between the two
    quotes: ASCII escapes, invalid UTF-8 written as the escape of U+FFFD,
    and U+2028 and U+2029 (E2 80 A8 and E2 80 A9) escaped. *)
Fixpoint appendString_body (s : string) : string :=
  match s with
  | EmptyString => EmptyString
  | String c r =>
      if is_ascii c then escape_ascii c ++ appendString_body r
      else
        match rune_len s, r with
        | Some 2%nat, String c1 r1 =>
            String c (String c1 (appendString_body r1))
        | Some 3%nat, String c1 (String c2 r2) =>
            if ((byte_val c =? 226) && (byte_val c1 =? 128)
                && ((byte_val c2 =? 168) || (byte_val c2 =? 169)))%N
            then String backslash (String "u" (String "2" (String "0" (String "2"
                   (String (hex_digit (byte_val c2 mod 16))
                      (appendString_body r2))))))
            else String c (String c1 (String c2 (appendString_body r2)))
        | Some 4%nat, String c1 (String c2 (String c3 r3)) =>
            String c (String c1 (String c2 (String c3 (appendString_body r3))))
        | _, _ =>
            String backslash "ufffd" ++ appendString_body r
        end
  end.

Definition appendString (s : string) : string :=
  String dquote (appendString_body s ++ String dquote EmptyString).

(** [strconv.AppendInt v 10]. *)
Definition appendInt (z : Z) : string :=
  NilEmpty.string_of_int (Z.to_int z).

(** [json.Marshal] of an [Asset]: the fields in the order of the struct,
    under the names of their tags.  No field of this struct can make
    [Marshal] fail, so the encoder is a plain function; [Marshal] below
    wraps it in the result type the call sites test. *)
Definition encodeAsset (a : Asset) : string :=
  "{" ++ appendString "AppraisedValue" ++ ":" ++ appendInt (AppraisedValue a)
  ++ "," ++ appendString "Color" ++ ":" ++ appendString (Color a)
  ++ "," ++ appendString "ID" ++ ":" ++ appendString (ID a)
  ++ "," ++ appendString "Owner" ++ ":" ++ appendString (Owner a)
  ++ "," ++ appendString "Size" ++ ":" ++ appendInt (Size a)
  ++ "}".

(** *** Decoding: JSON values *)

Inductive json_error :=
  | SyntaxError
  | UnmarshalTypeError (field : string).

(** A parsed JSON value.  A number keeps its literal: Go converts it only
    when it knows the type of the destination. *)
#[warnings="-register-all"] Inductive value :=
  | VNull
  | VBool (b : bool)
  | VNumber (lit : string)
  | VString (s : string)
  | VArray (l : list value)
  | VObject (m : list (string * value)).

Definition hex_val (c : ascii) : option N :=
  let b := byte_val c in
  if between 48 57 c then Some (b - 48)%N
  else if between 97 102 c then Some (b - 87)%N
  else if between 65 70 c then Some (b - 55)%N
  else None.

(** [getu4]: the code unit of the four hex digits after a backslash and
    a [u]. *)
Definition getu4 (h1 h2 h3 h4 : ascii) : option N :=
  match hex_val h1, hex_val h2, hex_val h3, hex_val h4 with
  | Some a, Some b, Some c, Some d => Some (((a * 16 + b) * 16 + c) * 16 + d)%N
  | _, _, _, _ => None
  end.

Definition is_surrogate (r : N) : bool := ((55296 <=? r) && (r <? 57344))%N.

(** [utf16.DecodeRune r1 r2]: [None] stands for U+FFFD. *)
Definition utf16_DecodeRune (r1 r2 : N) : option N :=
  if ((55296 <=? r1) && (r1 <? 56320) && (56320 <=? r2) && (r2 <? 57344))%N
  then Some ((r1 - 55296) * 1024 + (r2 - 56320) + 65536)%N
  else None.

Definition byte_of (n : N) : ascii := ascii_of_N n.

(** [utf8.EncodeRune]. *)
Definition encodeRune (r : N) : string :=
  if (r <? 128)%N then String (byte_of r) EmptyString
  else if (r <? 2048)%N then
    String (byte_of (192 + r / 64)) (String (byte_of (128 + r mod 64)) EmptyString)
  else if (is_surrogate r || (1114111 <? r)%N) then replacement
  else if (r <? 65536)%N then
    String (byte_of (224 + r / 4096))
      (String (byte_of (128 + (r / 64) mod 64))
         (String (byte_of (128 + r mod 64)) EmptyString))
  else
    String (byte_of (240 + r / 262144))
      (String (byte_of (128 + (r / 4096) mod 64))
         (String (byte_of (128 + (r / 64) mod 64))
            (String (byte_of (128 + r mod 64)) EmptyString))).

(** The character a one-letter escape stands for. *)
Definition simple_escape (e : ascii) : option ascii :=
  match e with
  | "034" => Some "034" | "092" => Some "092" | "/" => Some "/"
  | "b" => Some "008" | "f" => Some "012" | "n" => Some "010"
  | "r" => Some "013" | "t" => Some "009"
  | _ => None
  end%char.

Definition emit (pre : string) (k : option (string * string))
  : option (string * string) :=
  match k with
  | Some (out, rest) => Some (pre ++ out, rest)
  | None => None
  end.

(** A string literal, read from just after its opening quote: the scanner's
    string states together with [unquote].  The result is the decoded string
    and the input after the closing quote.  Raw bytes that are not
    well-formed UTF-8, and escaped surrogates that do not pair up, come out
    as U+FFFD. *)
Fixpoint string_lit (s : string) : option (string * string) :=
  match s with
  | EmptyString => None
  | String c r =>
      if Ascii.eqb c dquote then Some (EmptyString, r)
      else if Ascii.eqb c backslash then
        match r with
        | String "u" (String h1 (String h2 (String h3 (String h4 r4)))) =>
            match getu4 h1 h2 h3 h4 with
            | None => None
            | Some rr =>
                if is_surrogate rr then
                  match r4 with
                  | String "092" (String "u"
                      (String g1 (String g2 (String g3 (String g4 r10))))) =>
                      match getu4 g1 g2 g3 g4 with
                      | Some rr1 =>
                          match utf16_DecodeRune rr rr1 with
                          | Some dec => emit (encodeRune dec) (string_lit r10)
                          | None => emit replacement (string_lit r4)
                          end
                      | None => emit replacement (string_lit r4)
                      end
                  | _ => emit replacement (string_lit r4)
                  end
                else emit (encodeRune rr) (string_lit r4)
            end
        | String e r1 =>
            match simple_escape e with
            | Some ch => emit (String ch EmptyString) (string_lit r1)
            | None => None
            end
        | EmptyString => None
        end
      else if (byte_val c <? 32)%N then None
      else
        match rune_len s, r with
        | Some 1%nat, _ => emit (String c EmptyString) (string_lit r)
        | Some 2%nat, String c1 r1 =>
            emit (String c (String c1 EmptyString)) (string_lit r1)
        | Some 3%nat, String c1 (String c2 r2) =>
            emit (String c (String c1 (String c2 EmptyString))) (string_lit r2)
        | Some 4%nat, String c1 (String c2 (String c3 r3)) =>
            emit (String c (String c1 (String c2 (String c3 EmptyString))))
              (string_lit r3)
        | _, _ => emit replacement (string_lit r)
        end
  end%char.

(** *** Decoding: the grammar *)

Definition is_space (c : ascii) : bool :=
  match c with
  | " " | "009" | "010" | "013" => true
  | _ => false
  end%char.

Fixpoint skip_ws (s : string) : string :=
  match s with
  | String c r => if is_space c then skip_ws r else s
  | EmptyString => s
  end.

Definition is_digit (c : ascii) : bool := between 48 57 c.

(** The longest prefix of digits, and what follows it. *)
Fixpoint span_digits (s : string) : string * string :=
  match s with
  | String c r =>
      if is_digit c then
        let (ds, rest) := span_digits r in (String c ds, rest)
      else (EmptyString, s)
  | EmptyString => (EmptyString, EmptyString)
  end.

(** The integer part of a number: a lone 0, or a digit 1-9 and more
    digits. *)
Definition int_part (s : string) : option (string * string) :=
  match s with
  | String c r =>
      if Ascii.eqb c "0" then Some (String c EmptyString, r)
      else if is_digit c then
        let (ds, rest) := span_digits r in Some (String c ds, rest)
      else None
  | EmptyString => None
  end.

(** An optional fraction: a dot and at least one digit. *)
Definition frac_part (s : string) : option (string * string) :=
  match s with
  | String "." r =>
      match span_digits r with
      | (EmptyString, _) => None
      | (ds, rest) => Some (String "." ds, rest)
      end
  | _ => Some (EmptyString, s)
  end.

(** An optional exponent: e or E, an optional sign, at least one digit. *)
Definition exp_part (s : string) : option (string * string) :=
  match s with
  | String e r =>
      if Ascii.eqb e "e" || Ascii.eqb e "E" then
        let (sign, r1) :=
          match r with
          | String g r' =>
              if Ascii.eqb g "+" || Ascii.eqb g "-"
              then (String g EmptyString, r') else (EmptyString, r)
          | EmptyString => (EmptyString, r)
          end in
        match span_digits r1 with
        | (EmptyString, _) => None
        | (ds, rest) => Some (String e (sign ++ ds), rest)
        end
      else Some (EmptyString, s)
  | EmptyString => Some (EmptyString, s)
  end.

(** A number literal and the input after it. *)
Definition number_lit (s : string) : option (string * string) :=
  let (sign, s1) :=
    match s with
    | String "-" r => ("-", r)
    | _ => (EmptyString, s)
    end in
  match int_part s1 with
  | None => None
  | Some (i, s2) =>
      match frac_part s2 with
      | None => None
      | Some (f, s3) =>
          match exp_part s3 with
          | None => None
          | Some (e, s4) => Some (sign ++ i ++ f ++ e, s4)
          end
      end
  end.

(** [maxNestingDepth] of the scanner. *)
Definition maxNestingDepth : N := 10000.

(** The parser.  [fuel] bounds the number of values and members read, and
    the length of the input is always enough; [depth] counts the arrays and
    objects that are open.  [parse_value] reads a value after optional
    white space, [parse_elements] the rest of an array after its first
    bracket, [parse_members] the rest of an object from a key on. *)
Fixpoint parse_value (fuel : nat) (depth : N) (s : string)
  : option (value * string) :=
  match fuel with
  | O => None
  | S f =>
      match skip_ws s with
      | String "{" r =>
          if (maxNestingDepth <=? depth)%N then None
          else
            match skip_ws r with
            | String "}" r' => Some (VObject nil, r')
            | r' =>
                match parse_members f (depth + 1) r' with
                | Some (m, rest) => Some (VObject m, rest)
                | None => None
                end
            end
      | String "[" r =>
          if (maxNestingDepth <=? depth)%N then None
          else
            match skip_ws r with
            | String "]" r' => Some (VArray nil, r')
            | r' =>
                match parse_elements f (depth + 1) r' with
                | Some (l, rest) => Some (VArray l, rest)
                | None => None
                end
            end
      | String "034" r =>
          match string_lit r with
          | Some (str, rest) => Some (VString str, rest)
          | None => None
          end
      | String "t" (String "r" (String "u" (String "e" r))) =>
          Some (VBool true, r)
      | String "f" (String "a" (String "l" (String "s" (String "e" r)))) =>
          Some (VBool false, r)
      | String "n" (String "u" (String "l" (String "l" r))) =>
          Some (VNull, r)
      | s' =>
          match number_lit s' with
          | Some (lit, rest) => Some (VNumber lit, rest)
          | None => None
          end
      end
  end%char
with parse_elements (fuel : nat) (depth : N) (s : string)
  : option (list value * string) :=
  match fuel with
  | O => None
  | S f =>
      match parse_value f depth s with
      | None => None
      | Some (v, r) =>
          match skip_ws r with
          | String "," r' =>
              match parse_elements f depth r' with
              | Some (l, rest) => Some (v :: l, rest)
              | None => None
              end
          | String "]" r' => Some (v :: nil, r')
          | _ => None
          end
      end
  end%char
with parse_members (fuel : nat) (depth : N) (s : string)
  : option (list (string * value) * string) :=
  match fuel with
  | O => None
  | S f =>
      match skip_ws s with
      | String "034" r =>
          match string_lit r with
          | None => None
          | Some (key, r1) =>
              match skip_ws r1 with
              | String ":" r2 =>
                  match parse_value f depth r2 with
                  | None => None
                  | Some (v, r3) =>
                      match skip_ws r3 with
                      | String "," r4 =>
                          match parse_members f depth r4 with
                          | Some (m, rest) => Some ((key, v) :: m, rest)
                          | None => None
                          end
                      | String "}" r4 => Some ((key, v) :: nil, r4)
                      | _ => None
                      end
                  end
              | _ => None
              end
          end
      | _ => None
      end
  end%char.

(** [checkValid] and the scan of the whole input: one value, with white
    space around it and nothing else. *)
Definition parse (data : string) : option value :=
  match parse_value (S (String.length data)) 0 data with
  | Some (v, rest) =>
      match skip_ws rest with
      | EmptyString => Some v
      | _ => None
      end
  | None => None
  end.

(** *** Decoding: from a JSON value into the struct *)

Inductive field := FAppraisedValue | FColor | FID | FOwner | FSize.

Definition fields : list field :=
  FAppraisedValue :: FColor :: FID :: FOwner :: FSize :: nil.

(** The name a field has in JSON: its tag. *)
Definition field_name (f : field) : string :=
  match f with
  | FAppraisedValue => "AppraisedValue"
  | FColor => "Color"
  | FID => "ID"
  | FOwner => "Owner"
  | FSize => "Size"
  end.

Definition upper (c : ascii) : ascii :=
  if between 97 122 c then ascii_of_N (byte_val c - 32) else c.

(** [foldName]: ASCII letters in upper case, and the two runes outside ASCII
    whose case folding is an ASCII letter, U+017F (C5 BF, folds to S) and
    U+212A (E2 84 AA, folds to K).  Other runes are left as they are: their
    folding stays outside ASCII, and the names compared with are ASCII. *)
Fixpoint foldName (s : string) : string :=
  match s with
  | String "197" (String "191" r) => String "S" (foldName r)
  | String "226" (String "132" (String "170" r)) => String "K" (foldName r)
  | String c r => String (upper c) (foldName r)
  | EmptyString => EmptyString
  end%char.

(** The field a key of the object selects: the field of exactly that name,
    or else the one whose name is equal under case folding. *)
Definition lookup_field (key : string) : option field :=
  match find (fun f => String.eqb (field_name f) key) fields with
  | Some f => Some f
  | None =>
      find (fun f => String.eqb (foldName (field_name f)) (foldName key)) fields
  end.

(** [strconv.ParseInt lit 10 64] on a number literal: the literal must be an
    integer, without fraction or exponent, and fit 64 bits. *)
Definition parseInt (lit : string) : option Z :=
  match NilEmpty.int_of_string lit with
  | Some d => let z := Z.of_int d in if is_intb z then Some z else None
  | None => None
  end.

(** Storing one value into one field.  A null leaves the field as it is; a
    value of another kind than the field's is an [UnmarshalTypeError]. *)
Definition set_field (f : field) (v : value) (a : Asset) : Asset + json_error :=
  match v with
  | VNull => inl a
  | _ =>
      match f, v with
      | FColor, VString s =>
          inl (mkAsset (AppraisedValue a) s (ID a) (Owner a) (Size a))
      | FID, VString s =>
          inl (mkAsset (AppraisedValue a) (Color a) s (Owner a) (Size a))
      | FOwner, VString s =>
          inl (mkAsset (AppraisedValue a) (Color a) (ID a) s (Size a))
      | FAppraisedValue, VNumber lit =>
          match parseInt lit with
          | Some z => inl (mkAsset z (Color a) (ID a) (Owner a) (Size a))
          | None => inr (UnmarshalTypeError (field_name f))
          end
      | FSize, VNumber lit =>
          match parseInt lit with
          | Some z => inl (mkAsset (AppraisedValue a) (Color a) (ID a) (Owner a) z)
          | None => inr (UnmarshalTypeError (field_name f))
          end
      | _, _ => inr (UnmarshalTypeError (field_name f))
      end
  end.

(** The members of an object, in order.  A key that selects no field is
    skipped with its value; a field no key selects keeps the value it had;
    a key met twice stores twice.  The first error is saved and decoding
    goes on. *)
Fixpoint decode_members (m : list (string * value)) (a : Asset)
    (saved : option json_error) : Asset * option json_error :=
  match m with
  | nil => (a, saved)
  | (key, v) :: rest =>
      match lookup_field key with
      | None => decode_members rest a saved
      | Some f =>
          match set_field f v a with
          | inl a' => decode_members rest a' saved
          | inr e =>
              decode_members rest a
                (match saved with Some _ => saved | None => Some e end)
          end
      end
  end.

(** Decoding a value into the struct [a]. *)
Definition decode (v : value) (a : Asset) : Asset + json_error :=
  match v with
  | VNull => inl a
  | VObject m =>
      match decode_members m a None with
      | (a', None) => inl a'
      | (_, Some e) => inr e
      end
  | _ => inr (UnmarshalTypeError EmptyString)
  end.

(** [json.Unmarshal data &asset] on a fresh [var asset Asset]. *)
Definition Unmarshal (data : string) : Asset + json_error :=
  match parse data with
  | None => inr SyntaxError
  | Some v => decode v zeroAsset
  end.

(** [json.Marshal asset]; the error is always nil for this struct. *)
Definition Marshal (a : Asset) : string + json_error := inl (encodeAsset a).

End json.

(** ** Errors

    A Go [error] is one of: an error the stub returned, an error of
    [encoding/json], or an error built by [fmt.Errorf].  The latter is kept
    as its format and its operand, not rendered into text. *)

Inductive error :=
  | StubError (msg : string)
  | JsonError (e : json.json_error)
  | Errorf (format : string) (operand : operand)
with operand :=
  | OpString (s : string)
  | OpError (e : error).

Inductive result (A : Type) :=
  | Ok (a : A)
  | Err (e : error).
Arguments Ok {A} a.
Arguments Err {A} e.

(** ** The stub: the world state behind [ctx.GetStub()]

    [state] is the world state, a finite map from keys to values.  Each
    call can fail; which ones do is given by [getErr], [putErr], [delErr],
    by [rangeErr] for a range query and by [nextErr] for the step of its
    iterator that delivers a given key.  A write is seen by the calls that
    follow it: every contract function is one transaction, committed before
    the next one starts, and no contract function reads a key after writing
    it. *)

Record Stub := mkStub {
  state : gmap string string;
  getErr : string -> option error;
  putErr : string -> string -> option error;
  delErr : string -> option error;
  rangeErr : string -> string -> option error;
  nextErr : string -> option error
}.

Definition with_state (st : Stub) (m : gmap string string) : Stub :=
  mkStub m (getErr st) (putErr st) (delErr st) (rangeErr st) (nextErr st).

(** A computation against the stub: a result and the stub afterwards. *)
Definition M (A : Type) : Type := Stub -> result A * Stub.

Definition ret {A} (a : A) : M A := fun st => (Ok a, st).

Definition fail {A} (e : error) : M A := fun st => (Err e, st).

Definition bind {A B} (m : M A) (k : A -> M B) : M B :=
  fun st =>
    match m st with
    | (Ok a, st') => k a st'
    | (Err e, st') => (Err e, st')
    end.

(** [if err != nil { return h err }]: the error of [m], rewritten by [h]. *)
Definition on_error {A} (h : error -> error) (m : M A) : M A :=
  fun st =>
    match m st with
    | (Ok a, st') => (Ok a, st')
    | (Err e, st') => (Err (h e), st')
    end.

(** The result of a call to [encoding/json], with its error passed on as it
    is. *)
Definition of_json {A} (r : A + json.json_error) : M A :=
  match r with
  | inl a => ret a
  | inr e => fail (JsonError e)
  end.

Notation "x <- m ;; k" := (bind m (fun x => k))
  (at level 100, m at next level, right associativity).

(** [GetState key]: the value of the key, or [None] (Go's nil) when the key
    has none. *)
Definition GetState (key : string) : M (option string) :=
  fun st =>
    match getErr st key with
    | Some e => (Err e, st)
    | None => (Ok (state st !! key), st)
    end.

Definition PutState (key value : string) : M unit :=
  fun st =>
    match putErr st key value with
    | Some e => (Err e, st)
    | None => (Ok tt, with_state st (<[key := value]> (state st)))
    end.

Definition DelState (key : string) : M unit :=
  fun st =>
    match delErr st key with
    | Some e => (Err e, st)
    | None => (Ok tt, with_state st (delete key (state st)))
    end.

(** Range queries.  The entries of the world state come in the order of
    their keys, compared as byte strings.  An empty start key stands for
    the first simple key, [emptyKeySubstitute]; an empty end key for no
    bound. *)
Definition key_le (a b : string * string) : Prop :=
  String.leb (fst a) (fst b) = true.

#[global] Instance key_le_dec (a b : string * string) : Decision (key_le a b).
Proof. unfold key_le. apply _. Defined.

Definition emptyKeySubstitute : string := String "001" EmptyString.

Definition in_range (startKey endKey k : string) : bool :=
  String.leb startKey k && (String.eqb endKey EmptyString || String.ltb k endKey).

Definition range_entries (m : gmap string string) (startKey endKey : string)
  : list (string * string) :=
  List.filter (fun kv => in_range startKey endKey (fst kv))
    (merge_sort key_le (map_to_list m)).

(** [GetStateByRange startKey endKey]: an iterator, here the list of the
    entries it has still to deliver. *)
Definition GetStateByRange (startKey endKey : string)
  : M (list (string * string)) :=
  fun st =>
    match rangeErr st startKey endKey with
    | Some e => (Err e, st)
    | None =>
        let startKey :=
          if String.eqb startKey EmptyString then emptyKeySubstitute else startKey in
        (Ok (range_entries (state st) startKey endKey), st)
    end.

(** [resultsIterator.Next()] on an iterator whose next entry is
    [queryResponse]. *)
Definition Next (queryResponse : string * string) : M (string * string) :=
  fun st =>
    match nextErr st (fst queryResponse) with
    | Some e => (Err e, st)
    | None => (Ok queryResponse, st)
    end.

(** ** The contract (atcc.go) *)

(** The six assets of [InitLedger] (lines 27-34). *)
Definition seedAssets : list Asset :=
  mkAsset 300 "blue" "asset1" "Tomoko" 5 ::
  mkAsset 400 "red" "asset2" "Brad" 5 ::
  mkAsset 500 "green" "asset3" "Jin Soo" 10 ::
  mkAsset 600 "yellow" "asset4" "Max" 10 ::
  mkAsset 700 "black" "asset5" "Adriana" 15 ::
  mkAsset 800 "white" "asset6" "Michel" 15 :: nil.

(** The loop of [InitLedger] (lines 37-57) over the assets left. *)
Fixpoint putAssets (assets : list Asset) : M unit :=
  match assets with
  | nil => ret tt
  | asset :: rest =>
      assetJSON <- of_json (json.Marshal asset) ;;
      _ <- on_error
             (fun err => Errorf "Failed to put to world state. %v" (OpError err))
             (PutState (ID asset) assetJSON) ;;
      putAssets rest
  end.

Definition InitLedger : M unit := putAssets seedAssets.

(** [AssetExists] (lines 235-245). *)
Definition AssetExists (id : string) : M bool :=
  assetJSON <- on_error
      (fun _ => Errorf "Failed to read world state for asset with id %v" (OpString id))
      (GetState id) ;;
  ret (match assetJSON with Some _ => true | None => false end).

(** [CreateAsset] (lines 63-97). *)
Definition CreateAsset (id color : string) (size : Z) (owner : string)
    (appraisedValue : Z) : M unit :=
  exists_ <- AssetExists id ;;
  if exists_ : bool then
    fail (Errorf "The asset with id %s already exists" (OpString id))
  else
    let asset := mkAsset appraisedValue color id owner size in
    assetJSON <- of_json (json.Marshal asset) ;;
    PutState id assetJSON.

(** [ReadAsset] (lines 100-121). *)
Definition ReadAsset (id : string) : M Asset :=
  assetJSON <- on_error
      (fun _ => Errorf "Failed to read world state for asset with id %v" (OpString id))
      (GetState id) ;;
  match assetJSON with
  | None => fail (Errorf "The asset with id %v does not exist" (OpString id))
  | Some data => of_json (json.Unmarshal data)
  end.

(** [UpdateAsset] (lines 124-158). *)
Definition UpdateAsset (id color : string) (size : Z) (owner : string)
    (appraisedValue : Z) : M unit :=
  exists_ <- AssetExists id ;;
  if negb exists_ then
    fail (Errorf "The asset with id %s does not exist" (OpString id))
  else
    let updatedAsset := mkAsset appraisedValue color id owner size in
    updatedAssetJSON <- of_json (json.Marshal updatedAsset) ;;
    PutState id updatedAssetJSON.

(** [DeleteAsset] (lines 161-177). *)
Definition DeleteAsset (id : string) : M unit :=
  exists_ <- AssetExists id ;;
  if negb exists_ then
    fail (Errorf "The asset with id %s does not exist" (OpString id))
  else DelState id.

(** [TransferAsset] (lines 179-198). *)
Definition TransferAsset (id newOwner : string) : M unit :=
  transferedAsset <- ReadAsset id ;;
  let transferedAsset :=
    mkAsset (AppraisedValue transferedAsset) (Color transferedAsset)
      (ID transferedAsset) newOwner (Size transferedAsset) in
  transferedAssetJSON <- of_json (json.Marshal transferedAsset) ;;
  PutState id transferedAssetJSON.

(** The loop of [GetAllAssets] (lines 211-229) over the entries the
    iterator has left: [HasNext] is false on the empty list. *)
Fixpoint collectAssets (it : list (string * string)) (assets : list Asset)
  : M (list Asset) :=
  match it with
  | nil => ret assets
  | entry :: rest =>
      queryResponse <- Next entry ;;
      asset <- of_json (json.Unmarshal (snd queryResponse)) ;;
      collectAssets rest (assets ++ asset :: nil)
  end.

(** [GetAllAssets] (lines 200-232). *)
Definition GetAllAssets : M (list Asset) :=
  resultsIterator <- GetStateByRange EmptyString EmptyString ;;
  collectAssets resultsIterator nil.

(** ** Definitions used by the statements and proofs *)

(** The three strings of an asset are well-formed UTF-8. *)
Definition valid_asset (a : Asset) : Prop :=
  utf8.valid (Color a) = true /\ utf8.valid (ID a) = true
  /\ utf8.valid (Owner a) = true.

(** What an asset becomes through [json.Marshal]: its strings coerced to
    well-formed UTF-8. *)
Definition coerce_asset (a : Asset) : Asset :=
  mkAsset (AppraisedValue a) (utf8.coerce (Color a)) (utf8.coerce (ID a))
    (utf8.coerce (Owner a)) (Size a).

(** An asset that [json.Marshal] and [json.Unmarshal] give back as it is:
    its strings are well-formed UTF-8 and its numbers are values of Go's
    [int]. *)
Definition encodable (a : Asset) : Prop :=
  valid_asset a /\ is_int (AppraisedValue a) /\ is_int (Size a).

(** The value the parser reads from the encoding of an asset. *)
Definition assetValue (a : Asset) : json.value :=
  json.VObject
    (("AppraisedValue", json.VNumber (json.appendInt (AppraisedValue a)))
    :: ("Color", json.VString (utf8.coerce (Color a)))
    :: ("ID", json.VString (utf8.coerce (ID a)))
    :: ("Owner", json.VString (utf8.coerce (Owner a)))
    :: ("Size", json.VNumber (json.appendInt (Size a))) :: nil).

(** The strings a decoder can take out of a parsed value, the value itself
    and the members of an object, are well-formed UTF-8. *)
Definition string_ok (v : json.value) : Prop :=
  match v with
  | json.VString s => utf8.valid s = true
  | _ => True
  end.

Definition value_ok (v : json.value) : Prop :=
  match v with
  | json.VObject m => Forall (fun kv => string_ok (snd kv)) m
  | _ => string_ok v
  end.

(** The characters that follow a number in the encoding of the struct. *)
Definition closes (c : ascii) : Prop := c = ","%char \/ c = "}"%char.

(** The world state after the puts of [putAssets], when none fails. *)
Definition put_all (assets : list Asset) (m : gmap string string)
  : gmap string string :=
  fold_left (fun m a => <[ID a := json.encodeAsset a]> m) assets m.



(** *** A malformed record, said without the decoder

    The definitions below say in their own terms, not through
    [json.set_field] and [json.lookup_field], which stored values make
    [ReadAsset] fail. *)












(** A string that is not UTF-8: the single byte FF. *)
Definition invalidString : string := String "255" EmptyString.

(** The key/ID agreement: every value of the world state decodes to an asset
    whose ID is the key it is stored under. *)
Definition key_id_agree (m : gmap string string) : Prop :=
  forall k v, m !! k = Some v ->
    exists a, json.Unmarshal v = inl a /\ ID a = k.

(** An empty world state behind a stub that never fails. *)
Definition emptyStub : Stub :=
  mkStub ∅ (fun _ => None) (fun _ _ => None) (fun _ => None)
    (fun _ _ => None) (fun _ => None).

(** A world state that holds the first asset of [InitLedger] only. *)
Definition oneAssetStub : Stub :=
  with_state emptyStub
    (<["asset1" := json.encodeAsset (mkAsset 300 "blue" "asset1" "Tomoko" 5)]> ∅).

(** A stub whose every put fails with [e]. *)
Definition failingPutStub (e : error) : Stub :=
  mkStub ∅ (fun _ => None) (fun _ _ => Some e) (fun _ => None)
    (fun _ _ => None) (fun _ => None).

(** A stub whose puts fail with [e] under the key [k], and only there. *)
Definition failingKeyStub (k : string) (e : error) : Stub :=
  mkStub ∅ (fun _ => None)
    (fun key _ => if String.eqb key k then Some e else None) (fun _ => None)
    (fun _ _ => None) (fun _ => None).

(** Every put of the assets succeeds. *)
Definition puts_ok (st : Stub) (assets : list Asset) : Prop :=
  forall a, In a assets -> putErr st (ID a) (json.encodeAsset a) = None.

(** A world state that holds the value [v] under the key [k] only. *)
Definition singleStub (k v : string) : Stub :=
  with_state emptyStub (<[k := v]> ∅).

(** The entries that the range query of [GetAllAssets] delivers: those of
    all the simple keys. *)
Definition all_entries (st : Stub) : list (string * string) :=
  range_entries (state st) emptyKeySubstitute EmptyString.

(** The value of an entry decodes to the asset. *)
Definition decodes (kv : string * string) (a : Asset) : Prop :=
  json.Unmarshal (snd kv) = inl a.

(** A stub whose range queries fail with [e]. *)
Definition failingRangeStub (m : gmap string string) (e : error) : Stub :=
  mkStub m (fun _ => None) (fun _ _ => None) (fun _ => None)
    (fun _ _ => Some e) (fun _ => None).

(** A stub whose iterators fail with [e] at the key [k]. *)
Definition failingNextStub (m : gmap string string) (k : string) (e : error)
  : Stub :=
  mkStub m (fun _ => None) (fun _ _ => None) (fun _ => None)
    (fun _ _ => None) (fun key => if String.eqb key k then Some e else None).

(** A stub whose point reads fail with [e]. *)
Definition failingGetStub (m : gmap string string) (e : error) : Stub :=
  mkStub m (fun _ => Some e) (fun _ _ => None) (fun _ => None)
    (fun _ _ => None) (fun _ => None).

(** A stub whose deletes fail with [e]. *)
Definition failingDelStub (m : gmap string string) (e : error) : Stub :=
  mkStub m (fun _ => None) (fun _ _ => None) (fun _ => Some e)
    (fun _ _ => None) (fun _ => None).

(** The world state of [oneAssetStub] behind a stub whose puts fail. *)
Definition readOnlyStub (e : error) : Stub :=
  mkStub (state oneAssetStub) (fun _ => None) (fun _ _ => Some e)
    (fun _ => None) (fun _ _ => None) (fun _ => None).

(** The world state after a successful [InitLedger] on the empty one. *)
Definition seededStub : Stub := with_state emptyStub (put_all seedAssets ∅).

(** Every value of the world state is well-formed UTF-8. *)
Definition all_valid (m : gmap string string) : Prop :=
  forall k v, m !! k = Some v -> utf8.valid v = true.

(** Every value of the world state decodes to an asset. *)
Definition all_decode (m : gmap string string) : Prop :=
  forall k v, m !! k = Some v -> exists a, json.Unmarshal v = inl a.

(** * Properties *)

(** ** UTF-8 *)

Module utf8_facts.
Import utf8.

(** The size of the rune at the head depends on as many bytes only. *)
Lemma rune_len_1 c r : rune_len (String c r) = Some 1%nat -> is_ascii c = true.
Proof.
  unfold rune_len. destruct (is_ascii c); [easy|].
  repeat match goal with
         | |- context [if ?b then _ else _] => destruct b
         | |- context [match ?s with EmptyString => _ | String _ _ => _ end] =>
             destruct s
         end; discriminate.
Qed.

Lemma rune_len_ascii c r : is_ascii c = true -> rune_len (String c r) = Some 1%nat.
Proof. intros H. unfold rune_len. now rewrite H. Qed.

Lemma rune_len_2 c r : rune_len (String c r) = Some 2%nat ->
  is_ascii c = false /\ exists c1 r1, r = String c1 r1 /\
    forall x, rune_len (String c (String c1 x)) = Some 2%nat.
Proof.
  unfold rune_len. destruct (is_ascii c); [discriminate|].
  destruct (between 194 223 c).
  - destruct r as [|c1 r1]; [discriminate|].
    destruct (second_ok c c1) eqn:E; [|discriminate].
    intros _. split; [easy|]. exists c1, r1. split; [easy|]. intros x.
    now rewrite E.
  - repeat match goal with
         | |- context [if ?b then _ else _] => destruct b
         | |- context [match ?s with EmptyString => _ | String _ _ => _ end] =>
             destruct s
         end; discriminate.
Qed.

Lemma rune_len_3 c r : rune_len (String c r) = Some 3%nat ->
  is_ascii c = false /\ exists c1 c2 r2, r = String c1 (String c2 r2) /\
    forall x, rune_len (String c (String c1 (String c2 x))) = Some 3%nat.
Proof.
  unfold rune_len. destruct (is_ascii c); [discriminate|].
  destruct (between 194 223 c).
  { destruct r as [|c1 r1]; [discriminate|]. now destruct (second_ok c c1). }
  destruct (between 224 239 c).
  - destruct r as [|c1 [|c2 r2]]; [discriminate..|].
    destruct (second_ok c c1 && is_cont c2) eqn:E; [|discriminate].
    intros _. split; [easy|]. exists c1, c2, r2. split; [easy|]. intros x.
    now rewrite E.
  - repeat match goal with
         | |- context [if ?b then _ else _] => destruct b
         | |- context [match ?s with EmptyString => _ | String _ _ => _ end] =>
             destruct s
         end; discriminate.
Qed.

Lemma rune_len_4 c r : rune_len (String c r) = Some 4%nat ->
  is_ascii c = false /\ exists c1 c2 c3 r3,
    r = String c1 (String c2 (String c3 r3)) /\
    forall x, rune_len (String c (String c1 (String c2 (String c3 x)))) = Some 4%nat.
Proof.
  unfold rune_len. destruct (is_ascii c); [discriminate|].
  destruct (between 194 223 c).
  { destruct r as [|c1 r1]; [discriminate|]. now destruct (second_ok c c1). }
  destruct (between 224 239 c).
  { destruct r as [|c1 [|c2 r2]]; [discriminate..|].
    now destruct (second_ok c c1 && is_cont c2). }
  destruct (between 240 244 c); [|discriminate].
  destruct r as [|c1 [|c2 [|c3 r3]]]; [discriminate..|].
  destruct (second_ok c c1 && is_cont c2 && is_cont c3) eqn:E; [|discriminate].
  intros _. split; [easy|]. exists c1, c2, c3, r3. split; [easy|]. intros x.
  now rewrite E.
Qed.

Lemma rune_len_None c r : rune_len (String c r) = None ->
  is_ascii c = false /\ forall n, rune_len (String c r) <> Some n.
Proof.
  intros H. split.
  - destruct (is_ascii c) eqn:E; [|easy].
    rewrite (rune_len_ascii _ _ E) in H. discriminate.
  - intros n. rewrite H. discriminate.
Qed.

Lemma rune_len_cases s : 
  rune_len s = None \/ rune_len s = Some 1%nat \/ rune_len s = Some 2%nat
  \/ rune_len s = Some 3%nat \/ rune_len s = Some 4%nat.
Proof.
  unfold rune_len. 
  repeat match goal with
         | |- context [if ?b then _ else _] => destruct b
         | |- context [match ?s with EmptyString => _ | String _ _ => _ end] =>
             destruct s
         end; auto.
Qed.

Lemma rune_ind (P : string -> Prop) :
  P EmptyString ->
  (forall c r, rune_len (String c r) = Some 1%nat -> P r -> P (String c r)) ->
  (forall c c1 r, rune_len (String c (String c1 r)) = Some 2%nat ->
     P r -> P (String c (String c1 r))) ->
  (forall c c1 c2 r, rune_len (String c (String c1 (String c2 r))) = Some 3%nat ->
     P r -> P (String c (String c1 (String c2 r)))) ->
  (forall c c1 c2 c3 r,
     rune_len (String c (String c1 (String c2 (String c3 r)))) = Some 4%nat ->
     P r -> P (String c (String c1 (String c2 (String c3 r))))) ->
  (forall c r, rune_len (String c r) = None -> P r -> P (String c r)) ->
  forall s, P s.
Proof.
  intros H0 H1 H2 H3 H4 HN s.
  remember (String.length s) as n eqn:Hn.
  revert s Hn. induction n as [n IH] using lt_wf_ind. intros s Hn.
  destruct s as [|c r]; [exact H0|].
  destruct (rune_len_cases (String c r)) as [E|[E|[E|[E|E]]]].
  - apply HN; [exact E|]. apply (IH (String.length r)); simpl in Hn; lia.
  - apply H1; [exact E|]. apply (IH (String.length r)); simpl in Hn; lia.
  - destruct (rune_len_2 _ _ E) as (_ & c1 & r1 & -> & _).
    apply H2; [exact E|]. apply (IH (String.length r1)); simpl in Hn; lia.
  - destruct (rune_len_3 _ _ E) as (_ & c1 & c2 & r2 & -> & _).
    apply H3; [exact E|]. apply (IH (String.length r2)); simpl in Hn; lia.
  - destruct (rune_len_4 _ _ E) as (_ & c1 & c2 & c3 & r3 & -> & _).
    apply H4; [exact E|]. apply (IH (String.length r3)); simpl in Hn; lia.
Qed.

(** The equations of [coerce] and [valid], one per size of the rune at the
    head. *)
Lemma coerce_1 c r : rune_len (String c r) = Some 1%nat ->
  coerce (String c r) = String c (coerce r).
Proof. intros H. cbn [coerce]. now rewrite H. Qed.

Lemma coerce_2 c c1 r : rune_len (String c (String c1 r)) = Some 2%nat ->
  coerce (String c (String c1 r)) = String c (String c1 (coerce r)).
Proof. intros H. cbn [coerce]. now rewrite H. Qed.

Lemma coerce_3 c c1 c2 r :
  rune_len (String c (String c1 (String c2 r))) = Some 3%nat ->
  coerce (String c (String c1 (String c2 r)))
  = String c (String c1 (String c2 (coerce r))).
Proof. intros H. cbn [coerce]. now rewrite H. Qed.

Lemma coerce_4 c c1 c2 c3 r :
  rune_len (String c (String c1 (String c2 (String c3 r)))) = Some 4%nat ->
  coerce (String c (String c1 (String c2 (String c3 r))))
  = String c (String c1 (String c2 (String c3 (coerce r)))).
Proof. intros H. cbn [coerce]. now rewrite H. Qed.

Lemma coerce_None c r : rune_len (String c r) = None ->
  coerce (String c r) = (replacement ++ coerce r)%string.
Proof. intros H. cbn [coerce]. now rewrite H. Qed.

Lemma valid_1 c r : rune_len (String c r) = Some 1%nat ->
  valid (String c r) = valid r.
Proof. intros H. cbn [valid]. now rewrite H. Qed.

Lemma valid_2 c c1 r : rune_len (String c (String c1 r)) = Some 2%nat ->
  valid (String c (String c1 r)) = valid r.
Proof. intros H. cbn [valid]. now rewrite H. Qed.

Lemma valid_3 c c1 c2 r :
  rune_len (String c (String c1 (String c2 r))) = Some 3%nat ->
  valid (String c (String c1 (String c2 r))) = valid r.
Proof. intros H. cbn [valid]. now rewrite H. Qed.

Lemma valid_4 c c1 c2 c3 r :
  rune_len (String c (String c1 (String c2 (String c3 r)))) = Some 4%nat ->
  valid (String c (String c1 (String c2 (String c3 r)))) = valid r.
Proof. intros H. cbn [valid]. now rewrite H. Qed.

Lemma valid_None c r : rune_len (String c r) = None ->
  valid (String c r) = false.
Proof. intros H. cbn [valid]. now rewrite H. Qed.

(** The size of a head rune does not depend on what follows the rune. *)
Lemma rune_len_2_tail c c1 r x :
  rune_len (String c (String c1 r)) = Some 2%nat ->
  rune_len (String c (String c1 x)) = Some 2%nat.
Proof.
  intros H. destruct (rune_len_2 _ _ H) as (_ & d1 & r1 & [= -> ->] & Hx).
  apply Hx.
Qed.

Lemma rune_len_3_tail c c1 c2 r x :
  rune_len (String c (String c1 (String c2 r))) = Some 3%nat ->
  rune_len (String c (String c1 (String c2 x))) = Some 3%nat.
Proof.
  intros H.
  destruct (rune_len_3 _ _ H) as (_ & d1 & d2 & r1 & [= -> -> ->] & Hx).
  apply Hx.
Qed.

Lemma rune_len_4_tail c c1 c2 c3 r x :
  rune_len (String c (String c1 (String c2 (String c3 r)))) = Some 4%nat ->
  rune_len (String c (String c1 (String c2 (String c3 x)))) = Some 4%nat.
Proof.
  intros H.
  destruct (rune_len_4 _ _ H) as (_ & d1 & d2 & d3 & r1 & [= -> -> -> ->] & Hx).
  apply Hx.
Qed.

Lemma rune_len_1_tail c r x :
  rune_len (String c r) = Some 1%nat -> rune_len (String c x) = Some 1%nat.
Proof. intros H. apply rune_len_ascii. exact (rune_len_1 _ _ H). Qed.

Lemma valid_replacement x : valid (replacement ++ x) = valid x.
Proof. reflexivity. Qed.

(** Coercion yields well-formed UTF-8 and leaves well-formed UTF-8 alone. *)
Lemma coerce_valid s : valid (coerce s) = true.
Proof.
  induction s as [|c r E IH|c c1 r E IH|c c1 c2 r E IH|c c1 c2 c3 r E IH|c r E IH]
    using rune_ind.
  - reflexivity.
  - rewrite (coerce_1 _ _ E), (valid_1 _ _ (rune_len_1_tail _ _ _ E)). exact IH.
  - rewrite (coerce_2 _ _ _ E), (valid_2 _ _ _ (rune_len_2_tail _ _ _ _ E)).
    exact IH.
  - rewrite (coerce_3 _ _ _ _ E), (valid_3 _ _ _ _ (rune_len_3_tail _ _ _ _ _ E)).
    exact IH.
  - rewrite (coerce_4 _ _ _ _ _ E),
      (valid_4 _ _ _ _ _ (rune_len_4_tail _ _ _ _ _ _ E)).
    exact IH.
  - rewrite (coerce_None _ _ E), valid_replacement. exact IH.
Qed.

Lemma valid_coerce s : valid s = true -> coerce s = s.
Proof.
  induction s as [|c r E IH|c c1 r E IH|c c1 c2 r E IH|c c1 c2 c3 r E IH|c r E IH]
    using rune_ind.
  - reflexivity.
  - rewrite (valid_1 _ _ E), (coerce_1 _ _ E). intros H. now rewrite IH.
  - rewrite (valid_2 _ _ _ E), (coerce_2 _ _ _ E). intros H. now rewrite IH.
  - rewrite (valid_3 _ _ _ _ E), (coerce_3 _ _ _ _ E). intros H. now rewrite IH.
  - rewrite (valid_4 _ _ _ _ _ E), (coerce_4 _ _ _ _ _ E). intros H.
    now rewrite IH.
  - rewrite (valid_None _ _ E). discriminate.
Qed.

Lemma coerce_idem s : coerce (coerce s) = coerce s.
Proof. apply valid_coerce, coerce_valid. Qed.

Lemma append_cons c (r b : string) : String c r ++ b = String c (r ++ b).
Proof. reflexivity. Qed.

Lemma append_nil (b : string) : EmptyString ++ b = b.
Proof. reflexivity. Qed.

(** A well-formed prefix can be dropped. *)
Lemma valid_app a : valid a = true -> forall b, valid (a ++ b) = valid b.
Proof.
  induction a as [|c r E IH|c c1 r E IH|c c1 c2 r E IH|c c1 c2 c3 r E IH|c r E IH]
    using rune_ind; intros H b.
  - reflexivity.
  - rewrite (valid_1 _ _ E) in H. rewrite !append_cons.
    rewrite (valid_1 _ _ (rune_len_1_tail _ _ _ E)). now apply IH.
  - rewrite (valid_2 _ _ _ E) in H. rewrite !append_cons.
    rewrite (valid_2 _ _ _ (rune_len_2_tail _ _ _ _ E)). now apply IH.
  - rewrite (valid_3 _ _ _ _ E) in H. rewrite !append_cons.
    rewrite (valid_3 _ _ _ _ (rune_len_3_tail _ _ _ _ _ E)). now apply IH.
  - rewrite (valid_4 _ _ _ _ _ E) in H. rewrite !append_cons.
    rewrite (valid_4 _ _ _ _ _ (rune_len_4_tail _ _ _ _ _ _ E)). now apply IH.
  - rewrite (valid_None _ _ E) in H. discriminate.
Qed.

End utf8_facts.

(** ** encoding/json: strings *)

Module json_facts.
Import utf8 utf8_facts json.

Lemma append_assoc (a b c : string) : (a ++ b) ++ c = a ++ (b ++ c).
Proof.
  induction a as [|x a IH]; [reflexivity|].
  rewrite !append_cons. now rewrite IH.
Qed.

Lemma byte_val_byte_of n : (n < 256)%N -> byte_val (byte_of n) = n.
Proof. intros H. unfold byte_val, byte_of. now apply N_ascii_embedding. Qed.

(** Case analysis on the comparisons of a goal, closing the branches that
    arithmetic refutes. *)
Ltac cases_N :=
  repeat match goal with
         | |- context [N.leb ?a ?b] => destruct (N.leb_spec a b); try lia
         | |- context [N.ltb ?a ?b] => destruct (N.ltb_spec a b); try lia
         | |- context [N.eqb ?a ?b] => destruct (N.eqb_spec a b); try lia
         end.

Ltac rune_len_N :=
  unfold rune_len, second_ok, is_cont, is_ascii, RuneSelf; unfold between;
  cbv zeta beta; rewrite ?byte_val_byte_of by lia; cases_N; try reflexivity.

Lemma valid_bytes1 a : (a < 128)%N -> valid (String (byte_of a) EmptyString) = true.
Proof.
  intros. rewrite valid_1; [reflexivity|]. rune_len_N.
Qed.

Lemma valid_bytes2 a b : (194 <= a <= 223)%N -> (128 <= b <= 191)%N ->
  valid (String (byte_of a) (String (byte_of b) EmptyString)) = true.
Proof.
  intros. rewrite valid_2; [reflexivity|]. rune_len_N.
Qed.

Lemma valid_bytes3 a b c : (224 <= a <= 239)%N -> (128 <= b <= 191)%N ->
  (a = 224 -> 160 <= b)%N -> (a = 237 -> b <= 159)%N -> (128 <= c <= 191)%N ->
  valid (String (byte_of a) (String (byte_of b) (String (byte_of c) EmptyString)))
  = true.
Proof.
  intros. rewrite valid_3; [reflexivity|]. rune_len_N.
Qed.

Lemma valid_bytes4 a b c d : (240 <= a <= 244)%N -> (128 <= b <= 191)%N ->
  (a = 240 -> 144 <= b)%N -> (a = 244 -> b <= 143)%N ->
  (128 <= c <= 191)%N -> (128 <= d <= 191)%N ->
  valid (String (byte_of a) (String (byte_of b) (String (byte_of c)
           (String (byte_of d) EmptyString)))) = true.
Proof.
  intros. rewrite valid_4; [reflexivity|]. rune_len_N.
Qed.

(** The digits of a rune in base 64, as [utf8.EncodeRune] cuts them. *)
Lemma digits2 r :
  (r = 64 * (r / 64) + r mod 64 /\ r mod 64 < 64)%N.
Proof.
  split; [apply N.div_mod'|]. now apply N.mod_lt.
Qed.

Lemma digits3 r :
  (r = 4096 * (r / 4096) + 64 * ((r / 64) mod 64) + r mod 64
   /\ (r / 64) mod 64 < 64 /\ r mod 64 < 64)%N.
Proof.
  pose proof (N.div_mod' r 64). pose proof (N.div_mod' (r / 64) 64).
  pose proof (N.mod_lt r 64 ltac:(discriminate)).
  pose proof (N.mod_lt (r / 64) 64 ltac:(discriminate)).
  replace (r / 4096)%N with (r / 64 / 64)%N
    by (rewrite N.Div0.div_div; reflexivity).
  lia.
Qed.

Lemma digits4 r :
  (r = 262144 * (r / 262144) + 4096 * ((r / 4096) mod 64)
       + 64 * ((r / 64) mod 64) + r mod 64
   /\ (r / 4096) mod 64 < 64 /\ (r / 64) mod 64 < 64 /\ r mod 64 < 64)%N.
Proof.
  destruct (digits3 r) as (E & Hb & Hc).
  pose proof (N.div_mod' (r / 4096) 64).
  pose proof (N.mod_lt (r / 4096) 64 ltac:(discriminate)).
  replace (r / 262144)%N with (r / 4096 / 64)%N
    by (rewrite N.Div0.div_div; reflexivity).
  lia.
Qed.

(** [utf8.EncodeRune] writes well-formed UTF-8, whatever the rune. *)
Lemma valid_encodeRune r : valid (encodeRune r) = true.
Proof.
  unfold encodeRune, is_surrogate.
  destruct (N.ltb_spec r 128); [now apply valid_bytes1|].
  destruct (N.ltb_spec r 2048).
  { destruct (digits2 r) as (E & Hm).
    generalize dependent (r mod 64)%N. generalize dependent (r / 64)%N.
    intros. apply valid_bytes2; lia. }
  destruct (N.leb_spec 55296 r); destruct (N.ltb_spec r 57344);
    destruct (N.ltb_spec 1114111 r); cbn [andb orb]; try reflexivity;
    try lia.
  all: destruct (N.ltb_spec r 65536); try lia.
  1,3: destruct (digits3 r) as (E & Hb & Hc);
    generalize dependent (r mod 64)%N;
    generalize dependent ((r / 64) mod 64)%N;
    generalize dependent (r / 4096)%N; intros; apply valid_bytes3; lia.
  all: destruct (digits4 r) as (E & Hb & Hc & Hd);
    generalize dependent (r mod 64)%N;
    generalize dependent ((r / 64) mod 64)%N;
    generalize dependent ((r / 4096) mod 64)%N;
    generalize dependent (r / 262144)%N; intros; apply valid_bytes4; lia.
Qed.

Lemma emit_Some pre out rest :
  emit pre (Some (out, rest)) = Some (pre ++ out, rest).
Proof. reflexivity. Qed.

(** Reading back the escape of an ASCII byte. *)
Lemma string_lit_escape_ascii c x : is_ascii c = true ->
  string_lit (escape_ascii c ++ x) = emit (String c EmptyString) (string_lit x).
Proof.
  destruct c as [[] [] [] [] [] [] [] []]; intros H;
    try discriminate H; reflexivity.
Qed.

(** Reading a byte outside ASCII: neither a quote, a backslash nor a control
    character, so the rune at the head decides. *)
Lemma string_lit_nonascii c r : is_ascii c = false ->
  string_lit (String c r) =
    match rune_len (String c r), r with
    | Some 1%nat, _ => emit (String c EmptyString) (string_lit r)
    | Some 2%nat, String c1 r1 =>
        emit (String c (String c1 EmptyString)) (string_lit r1)
    | Some 3%nat, String c1 (String c2 r2) =>
        emit (String c (String c1 (String c2 EmptyString))) (string_lit r2)
    | Some 4%nat, String c1 (String c2 (String c3 r3)) =>
        emit (String c (String c1 (String c2 (String c3 EmptyString))))
          (string_lit r3)
    | _, _ => emit replacement (string_lit r)
    end.
Proof.
  destruct c as [[] [] [] [] [] [] [] []]; intros H;
    try discriminate H; reflexivity.
Qed.

Lemma appendString_body_ascii c r : is_ascii c = true ->
  appendString_body (String c r) = escape_ascii c ++ appendString_body r.
Proof. intros H. cbn [appendString_body]. now rewrite H. Qed.

Lemma appendString_body_nonascii c r : is_ascii c = false ->
  appendString_body (String c r) =
    match rune_len (String c r), r with
    | Some 2%nat, String c1 r1 =>
        String c (String c1 (appendString_body r1))
    | Some 3%nat, String c1 (String c2 r2) =>
        if ((byte_val c =? 226) && (byte_val c1 =? 128)
            && ((byte_val c2 =? 168) || (byte_val c2 =? 169)))%N
        then String backslash (String "u" (String "2" (String "0" (String "2"
               (String (hex_digit (byte_val c2 mod 16))
                  (appendString_body r2))))))
        else String c (String c1 (String c2 (appendString_body r2)))
    | Some 4%nat, String c1 (String c2 (String c3 r3)) =>
        String c (String c1 (String c2 (String c3 (appendString_body r3))))
    | _, _ =>
        String backslash "ufffd" ++ appendString_body r
    end.
Proof. intros H. cbn [appendString_body]. now rewrite H. Qed.

Lemma byte_val_inj c n : (byte_val c =? n)%N = true -> c = ascii_of_N n.
Proof.
  intros H. apply N.eqb_eq in H. subst n. unfold byte_val.
  now rewrite ascii_N_embedding.
Qed.

(** The escapes of U+2028, U+2029 and U+FFFD, read back. *)
Lemma string_lit_u2028 x :
  string_lit (String backslash (String "u" (String "2" (String "0" (String "2"
     (String "8" x))))))
  = emit (String "226" (String "128" (String "168" EmptyString))) (string_lit x).
Proof. reflexivity. Qed.

Lemma string_lit_u2029 x :
  string_lit (String backslash (String "u" (String "2" (String "0" (String "2"
     (String "9" x))))))
  = emit (String "226" (String "128" (String "169" EmptyString))) (string_lit x).
Proof. reflexivity. Qed.

Lemma string_lit_ufffd x :
  string_lit (String backslash "ufffd" ++ x) = emit replacement (string_lit x).
Proof. reflexivity. Qed.

(** Reading back what [appendString] wrote gives the coerced string. *)
Lemma string_lit_appendString_body s : forall rest,
  string_lit (appendString_body s ++ String dquote rest)
  = Some (coerce s, rest).
Proof.
  induction s as [|c r E IH|c c1 r E IH|c c1 c2 r E IH|c c1 c2 c3 r E IH|c r E IH]
    using rune_ind; intros rest.
  - reflexivity.
  - pose proof (rune_len_1 _ _ E) as A.
    rewrite (appendString_body_ascii _ _ A), append_assoc.
    rewrite (string_lit_escape_ascii _ _ A), IH, emit_Some.
    now rewrite (coerce_1 _ _ E).
  - destruct (rune_len_2 _ _ E) as (A & _).
    rewrite (appendString_body_nonascii _ _ A), E, !append_cons.
    rewrite (string_lit_nonascii _ _ A), (rune_len_2_tail _ _ _ _ E), IH, emit_Some.
    now rewrite (coerce_2 _ _ _ E).
  - destruct (rune_len_3 _ _ E) as (A & _).
    rewrite (appendString_body_nonascii _ _ A), E, (coerce_3 _ _ _ _ E).
    destruct ((byte_val c =? 226) && (byte_val c1 =? 128)
            && ((byte_val c2 =? 168) || (byte_val c2 =? 169)))%N eqn:U.
    + apply andb_prop in U as [U U2]. apply andb_prop in U as [U0 U1].
      apply byte_val_inj in U0, U1. subst c c1.
      apply orb_prop in U2 as [U2|U2]; apply byte_val_inj in U2; subst c2.
      * change (hex_digit (byte_val (ascii_of_N 168) mod 16)) with "8"%char.
        rewrite !append_cons, string_lit_u2028, IH. reflexivity.
      * change (hex_digit (byte_val (ascii_of_N 169) mod 16)) with "9"%char.
        rewrite !append_cons, string_lit_u2029, IH. reflexivity.
    + rewrite !append_cons.
      rewrite (string_lit_nonascii _ _ A), (rune_len_3_tail _ _ _ _ _ E), IH.
      now rewrite emit_Some.
  - destruct (rune_len_4 _ _ E) as (A & _).
    rewrite (appendString_body_nonascii _ _ A), E, !append_cons.
    rewrite (string_lit_nonascii _ _ A), (rune_len_4_tail _ _ _ _ _ _ E), IH.
    rewrite emit_Some. now rewrite (coerce_4 _ _ _ _ _ E).
  - destruct (rune_len_None _ _ E) as (A & _).
    rewrite (appendString_body_nonascii _ _ A), E, (coerce_None _ _ E).
    rewrite append_assoc, string_lit_ufffd, IH. reflexivity.
Qed.

(** The whole literal, with its quotes. *)
Lemma string_lit_appendString s rest :
  exists body, appendString s ++ rest = String dquote body
    /\ string_lit body = Some (coerce s, rest).
Proof.
  exists (appendString_body s ++ String dquote rest). split.
  - unfold appendString. rewrite append_cons, append_assoc. reflexivity.
  - apply string_lit_appendString_body.
Qed.

Lemma simple_escape_valid e a : simple_escape e = Some a ->
  valid (String a EmptyString) = true.
Proof.
  destruct e as [[] [] [] [] [] [] [] []]; intros [= <-]; reflexivity.
Qed.

(** The scrutinee a stuck match is waiting for. *)
Ltac head_scrut t :=
  match t with
  | match ?x with _ => _ end => head_scrut x
  | _ => t
  end.

Ltac break_match H :=
  repeat (
    match type of H with
    | ?l = _ =>
        match l with
        | match _ with _ => _ end =>
            let x := head_scrut l in
            first [ is_var x; destruct x | destruct x eqn:? ]
        end
    end;
    cbv beta match in H; try discriminate H).

Lemma emit_inv pre k out rest : emit pre k = Some (out, rest) ->
  exists o, k = Some (o, rest) /\ out = pre ++ o.
Proof.
  destruct k as [[o r]|]; [|discriminate]. intros [= <- <-]. now exists o.
Qed.

(** One step of [string_lit]: either the literal ends, or a well-formed
    piece is written and reading goes on with a shorter input. *)
Lemma string_lit_step s out rest : string_lit s = Some (out, rest) ->
  out = EmptyString \/
  exists pre o s', valid pre = true /\ (String.length s' < String.length s)%nat
    /\ string_lit s' = Some (o, rest) /\ out = pre ++ o.
Proof.
  intros H. destruct s as [|c r]; [discriminate|].
  cbn [string_lit] in H. break_match H.
  all: try (injection H as <- <-; left; reflexivity).
  all: right; apply emit_inv in H as (o & H & ->).
  all: eexists _, o, _; split; [|split; [|split; [exact H|reflexivity]]];
    [|cbn [String.length]; lia].
  all: try apply valid_encodeRune; try reflexivity.
  all: try (eapply simple_escape_valid; eassumption).
  - now rewrite (valid_1 _ _ (rune_len_1_tail _ _ _ Heqo)).
  - now rewrite (valid_2 _ _ _ (rune_len_2_tail _ _ _ _ Heqo)).
  - now rewrite (valid_3 _ _ _ _ (rune_len_3_tail _ _ _ _ _ Heqo)).
  - now rewrite (valid_4 _ _ _ _ _ (rune_len_4_tail _ _ _ _ _ _ Heqo)).
Qed.

(** Every string read from a literal is well-formed UTF-8. *)
Lemma string_lit_valid s : forall out rest,
  string_lit s = Some (out, rest) -> valid out = true.
Proof.
  remember (String.length s) as n eqn:Hn. revert s Hn.
  induction n as [n IH] using lt_wf_ind. intros s Hn out rest H.
  destruct (string_lit_step _ _ _ H) as [->|(pre & o & s' & Hp & Hl & H' & ->)].
  - reflexivity.
  - rewrite (valid_app _ Hp). subst n. exact (IH _ Hl s' eq_refl _ _ H').
Qed.

(** ** encoding/json: numbers *)

Lemma append_nil_r (s : string) : s ++ EmptyString = s.
Proof. induction s as [|c s IH]; [reflexivity|]. now rewrite append_cons, IH. Qed.

Lemma parseInt_appendInt z : is_int z -> parseInt (appendInt z) = Some z.
Proof.
  intros H. unfold parseInt, appendInt.
  rewrite NilEmpty.isi, DecimalZ.of_to.
  unfold is_int, minInt, maxInt in H. unfold is_intb, minInt, maxInt.
  destruct (Z.leb_spec (- 2 ^ 63) z); [|lia].
  destruct (Z.leb_spec z (2 ^ 63 - 1)); [|lia]. reflexivity.
Qed.

Lemma span_digits_uint u c rest : closes c ->
  span_digits (NilEmpty.string_of_uint u ++ String c rest)
  = (NilEmpty.string_of_uint u, String c rest).
Proof.
  intros Hc.
  induction u; cbn [NilEmpty.string_of_uint]; rewrite ?append_cons, ?append_nil;
    cbn [span_digits]; rewrite ?IHu; try reflexivity.
  destruct Hc as [-> | ->]; reflexivity.
Qed.

(** The decimal writing of a positive number starts with a digit that is
    not 0. *)
Lemma to_uint_head p :
  Pos.to_uint p <> Nil /\ forall d, Pos.to_uint p <> D0 d.
Proof.
  split; [apply Unsigned.to_uint_nonnil|]. intros d E.
  assert (U : unorm (Pos.to_uint p) = Pos.to_uint p).
  { rewrite <- Unsigned.to_of, Unsigned.of_to. reflexivity. }
  rewrite E in U.
  change (unorm (D0 d)) with (match nzhead d with Nil => zero | u => u end) in U.
  destruct (nzhead d) eqn:N; try discriminate U.
  - injection U as <-. apply (Unsigned.to_uint_nonzero p). exact E.
  - exact (nzhead_nonzero _ _ N).
Qed.

Lemma int_part_uint u c rest : closes c ->
  u <> Nil -> (forall d, u <> D0 d) ->
  int_part (NilEmpty.string_of_uint u ++ String c rest)
  = Some (NilEmpty.string_of_uint u, String c rest).
Proof.
  intros Hc Hn H0. unfold int_part.
  destruct u; try congruence; try (now destruct (H0 u));
    cbn [NilEmpty.string_of_uint]; rewrite append_cons;
    cbn -[span_digits]; now rewrite span_digits_uint.
Qed.

Lemma tail_part c rest : closes c ->
  frac_part (String c rest) = Some (EmptyString, String c rest)
  /\ exp_part (String c rest) = Some (EmptyString, String c rest).
Proof. intros [-> | ->]; split; reflexivity. Qed.

Lemma number_lit_uint u c rest : closes c ->
  u <> Nil -> (forall d, u <> D0 d) ->
  number_lit (NilEmpty.string_of_uint u ++ String c rest)
  = Some (NilEmpty.string_of_uint u, String c rest).
Proof.
  intros Hc Hn H0. unfold number_lit.
  assert (S : match NilEmpty.string_of_uint u ++ String c rest with
              | String "-" r => ("-", r)
              | _ => (EmptyString, NilEmpty.string_of_uint u ++ String c rest)
              end = (EmptyString, NilEmpty.string_of_uint u ++ String c rest)).
  { destruct u; try congruence; reflexivity. }
  rewrite S, (int_part_uint _ _ _ Hc Hn H0).
  destruct (tail_part c rest Hc) as [-> ->].
  now rewrite append_nil, !append_nil_r.
Qed.

(** A number written by [appendInt] is read back as its own literal. *)
Lemma number_lit_appendInt z c rest : closes c ->
  number_lit (appendInt z ++ String c rest) = Some (appendInt z, String c rest).
Proof.
  intros Hc. unfold appendInt. destruct z as [|p|p]; cbn [Z.to_int NilEmpty.string_of_int].
  - destruct Hc as [-> | ->]; reflexivity.
  - destruct (to_uint_head p) as [Hn H0]. now apply number_lit_uint.
  - destruct (to_uint_head p) as [Hn H0].
    rewrite append_cons. unfold number_lit.
    rewrite (int_part_uint _ _ _ Hc Hn H0).
    destruct (tail_part c rest Hc) as [-> ->].
    now rewrite !append_nil_r.
Qed.

(** The first character of a number is a sign or a digit. *)
Lemma appendInt_head z : exists h t, appendInt z = String h t
  /\ (h = "-"%char \/ is_digit h = true).
Proof.
  unfold appendInt. destruct z as [|p|p]; cbn [Z.to_int NilEmpty.string_of_int].
  - exists "0"%char, EmptyString. split; [reflexivity|now right].
  - destruct (to_uint_head p) as [Hn _].
    destruct (Pos.to_uint p); try congruence; cbn [NilEmpty.string_of_uint];
      eexists _, _; (split; [reflexivity|now right]).
  - eexists _, _. split; [reflexivity|now left].
Qed.

(** ** encoding/json: the parser on the encoding of an asset *)

Lemma lit1 c (s : string) : String c EmptyString ++ s = String c s.
Proof. now rewrite append_cons, append_nil. Qed.

Lemma length_append (a b : string) :
  String.length (a ++ b) = (String.length a + String.length b)%nat.
Proof.
  induction a as [|c a IH]; [now rewrite append_nil|].
  rewrite append_cons. cbn [String.length]. now rewrite IH.
Qed.

Lemma parse_value_string f d s rest :
  parse_value (S f) d (appendString s ++ rest) = Some (VString (coerce s), rest).
Proof.
  destruct (string_lit_appendString s rest) as (body & -> & E).
  unfold dquote. cbn [parse_value skip_ws is_space]. now rewrite E.
Qed.

Lemma parse_value_number f d h t : h = "-"%char \/ is_digit h = true ->
  parse_value (S f) d (String h t)
  = match number_lit (String h t) with
    | Some (lit, rest) => Some (VNumber lit, rest)
    | None => None
    end.
Proof.
  intros H.
  destruct h as [[] [] [] [] [] [] [] []]; destruct H as [H|H];
    try discriminate H; reflexivity.
Qed.

Lemma parse_value_appendInt f d z c rest : closes c ->
  parse_value (S f) d (appendInt z ++ String c rest)
  = Some (VNumber (appendInt z), String c rest).
Proof.
  intros Hc. destruct (appendInt_head z) as (h & t & E & Hh).
  pose proof (number_lit_appendInt z c rest Hc) as N.
  rewrite E, append_cons in N |- *.
  now rewrite (parse_value_number _ _ _ _ Hh), N.
Qed.

Lemma parse_object f d k rest : (maxNestingDepth <=? d)%N = false ->
  parse_value (S f) d (String "{" (appendString k ++ rest))
  = match parse_members f (d + 1) (appendString k ++ rest) with
    | Some (m, r) => Some (VObject m, r)
    | None => None
    end.
Proof.
  intros Hd. destruct (string_lit_appendString k rest) as (body & -> & _).
  unfold dquote. cbn [parse_value skip_ws is_space]. now rewrite Hd.
Qed.

Lemma members_cons f d k rest v r4 :
  parse_value f d rest = Some (v, String "," r4) ->
  parse_members (S f) d (appendString k ++ String ":" rest)
  = match parse_members f d r4 with
    | Some (m, r) => Some ((coerce k, v) :: m, r)
    | None => None
    end.
Proof.
  intros H.
  destruct (string_lit_appendString k (String ":" rest)) as (body & -> & E).
  unfold dquote. cbn [parse_members skip_ws is_space]. rewrite E.
  cbn [skip_ws is_space]. rewrite H. reflexivity.
Qed.

Lemma members_last f d k rest v r4 :
  parse_value f d rest = Some (v, String "}" r4) ->
  parse_members (S f) d (appendString k ++ String ":" rest)
  = Some ((coerce k, v) :: nil, r4).
Proof.
  intros H.
  destruct (string_lit_appendString k (String ":" rest)) as (body & -> & E).
  unfold dquote. cbn [parse_members skip_ws is_space]. rewrite E.
  cbn [skip_ws is_space]. rewrite H. reflexivity.
Qed.

Lemma parse_value_encodeAsset a n :
  parse_value (7 + n) 0 (encodeAsset a) = Some (assetValue a, EmptyString).
Proof.
  change (7 + n)%nat with (S (S (S (S (S (S (S n))))))).
  unfold encodeAsset. rewrite !lit1.
  rewrite parse_object by reflexivity.
  erewrite members_cons by (apply parse_value_appendInt; now left).
  erewrite members_cons by apply parse_value_string.
  erewrite members_cons by apply parse_value_string.
  erewrite members_cons by apply parse_value_string.
  erewrite members_last by (apply parse_value_appendInt; now right).
  reflexivity.
Qed.

Lemma length_encodeAsset a : exists n,
  String.length (encodeAsset a) = (6 + n)%nat.
Proof.
  exists (String.length (encodeAsset a) - 6)%nat.
  unfold encodeAsset. rewrite !length_append. cbn [String.length]. lia.
Qed.

Lemma parse_encodeAsset a : parse (encodeAsset a) = Some (assetValue a).
Proof.
  unfold parse. destruct (length_encodeAsset a) as (n & ->).
  change (S (6 + n)) with (7 + n)%nat.
  now rewrite parse_value_encodeAsset.
Qed.

(** Decoding what [Marshal] wrote gives the asset back, with its strings
    coerced to well-formed UTF-8. *)
Lemma Unmarshal_encodeAsset a :
  is_int (AppraisedValue a) -> is_int (Size a) ->
  Unmarshal (encodeAsset a) = inl (coerce_asset a).
Proof.
  intros Hv Hs. unfold Unmarshal. rewrite parse_encodeAsset.
  unfold assetValue, decode. cbn [decode_members].
  change (lookup_field "AppraisedValue") with (Some FAppraisedValue).
  change (lookup_field "Color") with (Some FColor).
  change (lookup_field "ID") with (Some FID).
  change (lookup_field "Owner") with (Some FOwner).
  change (lookup_field "Size") with (Some FSize).
  cbn [set_field]. rewrite (parseInt_appendInt _ Hv).
  cbn [set_field decode_members AppraisedValue Color ID Owner Size zeroAsset].
  rewrite (parseInt_appendInt _ Hs). reflexivity.
Qed.

(** ** encoding/json: what a decoded asset looks like *)

Lemma parse_value_string_ok f d s v r :
  parse_value f d s = Some (v, r) -> string_ok v.
Proof.
  destruct f as [|f]; [discriminate|]. intros H.
  cbn [parse_value] in H. break_match H.
  all: injection H as <- <-; cbn [string_ok]; try exact I.
  all: eapply string_lit_valid; eassumption.
Qed.

Lemma parse_members_ok f : forall d s m r,
  parse_members f d s = Some (m, r) ->
  Forall (fun kv => string_ok (snd kv)) m.
Proof.
  induction f as [|f IH]; intros d s m r H; [discriminate|].
  cbn [parse_members] in H. break_match H.
  all: injection H as <- <-.
  all: repeat constructor; cbn [snd];
    try (eapply parse_value_string_ok; eassumption).
  all: eapply IH; eassumption.
Qed.

Lemma parse_value_ok f d s v r :
  parse_value f d s = Some (v, r) -> value_ok v.
Proof.
  intros H. pose proof (parse_value_string_ok _ _ _ _ _ H) as Hs.
  destruct v; try exact Hs. clear Hs.
  destruct f as [|f]; [discriminate|].
  cbn [parse_value] in H. break_match H.
  all: injection H as <-; intros; subst; cbn [value_ok]; try constructor.
  all: eapply parse_members_ok; eassumption.
Qed.

Lemma parse_ok data v : parse data = Some v -> value_ok v.
Proof.
  unfold parse. intros H.
  destruct (parse_value _ 0 data) as [[v' r]|] eqn:E; [|discriminate].
  destruct (skip_ws r); [|discriminate]. injection H as <-.
  eapply parse_value_ok; eassumption.
Qed.

Lemma parseInt_is_int lit z : parseInt lit = Some z -> is_int z.
Proof.
  unfold parseInt. destruct (NilEmpty.int_of_string lit); [|discriminate].
  cbv zeta. destruct (is_intb _) eqn:E; [|discriminate]. intros [= <-].
  unfold is_intb in E. apply andb_prop in E as [E1 E2].
  unfold is_int. split; [now apply Z.leb_le|now apply Z.leb_le].
Qed.

Lemma set_field_encodable f v a a' :
  string_ok v -> encodable a -> set_field f v a = inl a' -> encodable a'.
Proof.
  intros Hv (Ha & Hi & Hs) H. destruct Ha as (Hc & Hd & Ho).
  destruct v, f; cbn [set_field] in H; try discriminate H;
    try (destruct (parseInt lit) eqn:E; [|discriminate];
         apply parseInt_is_int in E);
    injection H as <-; unfold encodable, valid_asset;
    cbn [AppraisedValue Color ID Owner Size]; auto 10.
Qed.

Lemma decode_members_encodable m : forall a saved a' e,
  Forall (fun kv => string_ok (snd kv)) m -> encodable a ->
  decode_members m a saved = (a', e) -> encodable a'.
Proof.
  induction m as [|[k v] m IH]; intros a saved a' e Hm Ha H.
  - now injection H as <- _.
  - inversion Hm as [|? ? Hv Hm']; subst. cbn [decode_members snd] in *.
    destruct (lookup_field k) as [f|]; [|now eapply IH; eauto].
    destruct (set_field f v a) as [a1|err] eqn:E.
    + eapply IH; [exact Hm'| |exact H]. eapply set_field_encodable; eauto.
    + eapply IH; eauto.
Qed.

Lemma zeroAsset_encodable : encodable zeroAsset.
Proof.
  unfold encodable, valid_asset, is_int, minInt, maxInt; cbn.
  repeat split; lia.
Qed.

(** Whatever [Unmarshal] returns is an asset that [Marshal] keeps. *)
Lemma Unmarshal_encodable data a : Unmarshal data = inl a -> encodable a.
Proof.
  unfold Unmarshal. destruct (parse data) as [v|] eqn:P; [|discriminate].
  apply parse_ok in P. destruct v; cbn [decode]; try discriminate.
  - intros [= <-]. apply zeroAsset_encodable.
  - destruct (decode_members m zeroAsset None) as [a' [e|]] eqn:D;
      [discriminate|]. intros [= <-].
    eapply decode_members_encodable; [exact P|apply zeroAsset_encodable|exact D].
Qed.

Lemma coerce_asset_valid a : valid_asset a -> coerce_asset a = a.
Proof.
  intros (Hc & Hi & Ho). destruct a as [v c i o s]; cbn in *.
  unfold coerce_asset; cbn. now rewrite !valid_coerce.
Qed.

(** The round trip of an encodable asset is exact. *)
Lemma Unmarshal_Marshal a : encodable a -> Unmarshal (encodeAsset a) = inl a.
Proof.
  intros (Ha & Hv & Hs).
  now rewrite (Unmarshal_encodeAsset a Hv Hs), (coerce_asset_valid a Ha).
Qed.

(** In general the round trip coerces the strings. *)
Lemma coerce_asset_encodable a :
  is_int (AppraisedValue a) -> is_int (Size a) -> encodable (coerce_asset a).
Proof.
  intros Hv Hs. unfold encodable, valid_asset, coerce_asset.
  cbn [AppraisedValue Color ID Owner Size]. rewrite !coerce_valid. auto 10.
Qed.

End json_facts.

(** ** The contract *)

Module atcc_facts.
Import json_facts.

Lemma bind_ok {A B} (m : M A) (k : A -> M B) st a st' :
  m st = (Ok a, st') -> bind m k st = k a st'.
Proof. unfold bind. now intros ->. Qed.

Lemma bind_err {A B} (m : M A) (k : A -> M B) st e st' :
  m st = (Err e, st') -> bind m k st = (Err e, st').
Proof. unfold bind. now intros ->. Qed.

Lemma AssetExists_ok st id : getErr st id = None ->
  AssetExists id st
  = (Ok (match state st !! id with Some _ => true | None => false end), st).
Proof.
  intros H. unfold AssetExists, bind, on_error, GetState, ret. now rewrite H.
Qed.

Lemma AssetExists_fail st id e : getErr st id = Some e ->
  AssetExists id st
  = (Err (Errorf "Failed to read world state for asset with id %v" (OpString id)),
     st).
Proof.
  intros H. unfold AssetExists, bind, on_error, GetState, ret. now rewrite H.
Qed.

Lemma ReadAsset_Some st id data :
  getErr st id = None -> state st !! id = Some data ->
  ReadAsset id st
  = (match json.Unmarshal data with
     | inl a => Ok a
     | inr e => Err (JsonError e)
     end, st).
Proof.
  intros H D. unfold ReadAsset, bind, on_error, GetState. rewrite H, D.
  unfold of_json, ret, fail. now destruct (json.Unmarshal data).
Qed.

Lemma ReadAsset_None st id :
  getErr st id = None -> state st !! id = None ->
  ReadAsset id st
  = (Err (Errorf "The asset with id %v does not exist" (OpString id)), st).
Proof.
  intros H D. unfold ReadAsset, bind, on_error, GetState. now rewrite H, D.
Qed.

Lemma ReadAsset_fail st id e : getErr st id = Some e ->
  ReadAsset id st
  = (Err (Errorf "Failed to read world state for asset with id %v" (OpString id)),
     st).
Proof.
  intros H. unfold ReadAsset, bind, on_error, GetState. now rewrite H.
Qed.

(** Marshal and put: the tail of [CreateAsset], [UpdateAsset] and
    [TransferAsset]. *)
Lemma put_ok st id a : putErr st id (json.encodeAsset a) = None ->
  bind (of_json (json.Marshal a)) (fun assetJSON => PutState id assetJSON) st
  = (Ok tt, with_state st (<[id := json.encodeAsset a]> (state st))).
Proof.
  intros H. unfold bind, of_json, json.Marshal, ret, PutState. now rewrite H.
Qed.

Lemma put_fail st id a e : putErr st id (json.encodeAsset a) = Some e ->
  bind (of_json (json.Marshal a)) (fun assetJSON => PutState id assetJSON) st
  = (Err e, st).
Proof.
  intros H. unfold bind, of_json, json.Marshal, ret, PutState. now rewrite H.
Qed.

Lemma CreateAsset_absent st id color size owner appraisedValue :
  getErr st id = None -> state st !! id = None ->
  CreateAsset id color size owner appraisedValue st
  = bind (of_json (json.Marshal (mkAsset appraisedValue color id owner size)))
      (fun assetJSON => PutState id assetJSON) st.
Proof.
  intros H D. unfold CreateAsset.
  rewrite (bind_ok _ _ _ _ _ (AssetExists_ok st id H)), D. reflexivity.
Qed.

Lemma UpdateAsset_present st id color size owner appraisedValue v :
  getErr st id = None -> state st !! id = Some v ->
  UpdateAsset id color size owner appraisedValue st
  = bind (of_json (json.Marshal (mkAsset appraisedValue color id owner size)))
      (fun assetJSON => PutState id assetJSON) st.
Proof.
  intros H D. unfold UpdateAsset.
  rewrite (bind_ok _ _ _ _ _ (AssetExists_ok st id H)), D. reflexivity.
Qed.

Lemma TransferAsset_present st id newOwner data a :
  getErr st id = None -> state st !! id = Some data ->
  json.Unmarshal data = inl a ->
  TransferAsset id newOwner st
  = bind (of_json (json.Marshal
        (mkAsset (AppraisedValue a) (Color a) (ID a) newOwner (Size a))))
      (fun assetJSON => PutState id assetJSON) st.
Proof.
  intros H D U. unfold TransferAsset.
  erewrite bind_ok; [reflexivity|]. now rewrite (ReadAsset_Some _ _ _ H D), U.
Qed.


Lemma is_int_small z : (-1000000 <= z <= 1000000)%Z -> is_int z.
Proof. unfold is_int, minInt, maxInt. lia. Qed.

(** Create or update, then read: what the put wrote decodes to the asset
    with its strings coerced. *)
Lemma read_after_put st id a :
  getErr st id = None -> is_int (Size a) -> is_int (AppraisedValue a) ->
  let st' := with_state st (<[id := json.encodeAsset a]> (state st)) in
  ReadAsset id st' = (Ok (coerce_asset a), st')
  /\ (valid_asset a -> ReadAsset id st' = (Ok a, st')).
Proof.
  intros G Hs Hv st'.
  assert (R : ReadAsset id st' = (Ok (coerce_asset a), st')).
  { rewrite (ReadAsset_Some st' id (json.encodeAsset a)).
    - now rewrite (Unmarshal_encodeAsset a Hv Hs).
    - exact G.
    - apply lookup_insert_eq. }
  split; [exact R|]. intros Ha. now rewrite (coerce_asset_valid a Ha) in R.
Qed.

(** C1 (amended).  For every asset tuple whose id has no value in the world
    state, when the read and the write of the stub succeed, [CreateAsset]
    succeeds and a [ReadAsset] of the id that follows returns the tuple with
    its three strings coerced to well-formed UTF-8; it returns exactly the
    tuple when the three strings are well-formed UTF-8. *)
Theorem C1_create_then_read st id color size owner appraisedValue :
  getErr st id = None -> state st !! id = None ->
  putErr st id
    (json.encodeAsset (mkAsset appraisedValue color id owner size)) = None ->
  is_int size -> is_int appraisedValue ->
  exists st',
    CreateAsset id color size owner appraisedValue st = (Ok tt, st')
    /\ ReadAsset id st'
       = (Ok (coerce_asset (mkAsset appraisedValue color id owner size)), st')
    /\ (valid_asset (mkAsset appraisedValue color id owner size) ->
        ReadAsset id st'
        = (Ok (mkAsset appraisedValue color id owner size), st')).
Proof.
  intros G D P Hs Hv. eexists. split.
  - rewrite (CreateAsset_absent _ _ _ _ _ _ G D). apply (put_ok _ _ _ P).
  - apply (read_after_put st id (mkAsset appraisedValue color id owner size));
      assumption.
Qed.

Lemma C1_create_then_read_witness :
  exists st',
    CreateAsset "asset7" "violet" 20 "Ana" 900 emptyStub = (Ok tt, st')
    /\ ReadAsset "asset7" st'
       = (Ok (mkAsset 900 "violet" "asset7" "Ana" 20), st').
Proof.
  destruct (C1_create_then_read emptyStub "asset7" "violet" 20 "Ana" 900)
    as (st' & H1 & _ & H3);
    [reflexivity|reflexivity|reflexivity|apply is_int_small; lia
    |apply is_int_small; lia|].
  exists st'. split; [exact H1|]. apply H3. repeat split; reflexivity.
Defined.

(** C1, as stated, fails on a color that is not UTF-8: the asset read back
    has the replacement character U+FFFD for its color. *)
Lemma C1_counterexample :
  exists st',
    CreateAsset "asset7" invalidString 20 "Ana" 900 emptyStub = (Ok tt, st')
    /\ ReadAsset "asset7" st'
       = (Ok (mkAsset 900 utf8.replacement "asset7" "Ana" 20), st')
    /\ String.eqb utf8.replacement invalidString = false.
Proof.
  eexists. split; [vm_compute; reflexivity|].
  split; vm_compute; reflexivity.
Qed.

(** C2 (amended).  For every id that has a value in the world state and
    every argument tuple, when the read of the stub succeeds, [CreateAsset]
    fails with the error "The asset with id %s already exists" on that id,
    and the stub, the world state with it, is left as it was. *)
Theorem C2_create_existing st id color size owner appraisedValue v :
  getErr st id = None -> state st !! id = Some v ->
  CreateAsset id color size owner appraisedValue st
  = (Err (Errorf "The asset with id %s already exists" (OpString id)), st).
Proof.
  intros G D. unfold CreateAsset.
  rewrite (bind_ok _ _ _ _ _ (AssetExists_ok st id G)), D. reflexivity.
Qed.

Lemma C2_create_existing_witness :
  CreateAsset "asset1" "red" 7 "Brad" 1 oneAssetStub
  = (Err (Errorf "The asset with id %s already exists" (OpString "asset1")),
     oneAssetStub).
Proof.
  apply (C2_create_existing oneAssetStub "asset1" "red" 7 "Brad" 1
           (json.encodeAsset (mkAsset 300 "blue" "asset1" "Tomoko" 5)));
    [reflexivity|vm_compute; reflexivity].
Defined.

(** C2, as stated, fails on a stub whose read fails: for an id that has a
    value, [CreateAsset] returns the error made for the failed read, not the
    error for an asset that exists already. *)
Lemma C2_counterexample :
  state (failingGetStub (state oneAssetStub) (StubError "unavailable"))
    !! "asset1"
  = Some (json.encodeAsset (mkAsset 300 "blue" "asset1" "Tomoko" 5))
  /\ CreateAsset "asset1" "red" 7 "Brad" 1
       (failingGetStub (state oneAssetStub) (StubError "unavailable"))
     = (Err (Errorf "Failed to read world state for asset with id %v"
               (OpString "asset1")),
        failingGetStub (state oneAssetStub) (StubError "unavailable")).
Proof. split; vm_compute; reflexivity. Qed.

(** C3.  For every id that has no value in the world state, when the read
    of the stub succeeds, [ReadAsset], [UpdateAsset], [DeleteAsset] and
    [TransferAsset] each fail with the error "The asset with id ... does not
    exist" on that id, and leave the stub, the world state with it, as it
    was. *)
Theorem C3_absent st id :
  getErr st id = None -> state st !! id = None ->
  ReadAsset id st
  = (Err (Errorf "The asset with id %v does not exist" (OpString id)), st)
  /\ (forall color size owner appraisedValue,
        UpdateAsset id color size owner appraisedValue st
        = (Err (Errorf "The asset with id %s does not exist" (OpString id)), st))
  /\ DeleteAsset id st
     = (Err (Errorf "The asset with id %s does not exist" (OpString id)), st)
  /\ (forall newOwner,
        TransferAsset id newOwner st
        = (Err (Errorf "The asset with id %v does not exist" (OpString id)), st)).
Proof.
  intros G D. pose proof (ReadAsset_None st id G D) as R.
  split; [exact R|]. split; [|split].
  - intros. unfold UpdateAsset.
    rewrite (bind_ok _ _ _ _ _ (AssetExists_ok st id G)), D. reflexivity.
  - unfold DeleteAsset.
    rewrite (bind_ok _ _ _ _ _ (AssetExists_ok st id G)), D. reflexivity.
  - intros. unfold TransferAsset. now rewrite (bind_err _ _ _ _ _ R).
Qed.

Lemma C3_absent_witness :
  ReadAsset "asset9" oneAssetStub
  = (Err (Errorf "The asset with id %v does not exist" (OpString "asset9")),
     oneAssetStub)
  /\ DeleteAsset "asset9" oneAssetStub
     = (Err (Errorf "The asset with id %s does not exist" (OpString "asset9")),
        oneAssetStub).
Proof.
  destruct (C3_absent oneAssetStub "asset9") as (R & _ & D & _);
    [reflexivity|vm_compute; reflexivity|].
  split; [exact R|exact D].
Defined.


(** C4 (amended).  For every id whose stored value decodes to an asset and
    every new owner, when the read and the write of the stub succeed,
    [TransferAsset] succeeds; the value then stored under the id decodes to
    the asset with the same AppraisedValue, Color, ID and Size, and with the
    new owner coerced to well-formed UTF-8, which is the new owner itself
    when it is well-formed UTF-8; the value of every other key is as it
    was. *)
Theorem C4_transfer st id newOwner data a :
  getErr st id = None -> state st !! id = Some data ->
  json.Unmarshal data = inl a ->
  putErr st id (json.encodeAsset
    (mkAsset (AppraisedValue a) (Color a) (ID a) newOwner (Size a))) = None ->
  exists st',
    TransferAsset id newOwner st = (Ok tt, st')
    /\ ReadAsset id st'
       = (Ok (mkAsset (AppraisedValue a) (Color a) (ID a)
                (utf8.coerce newOwner) (Size a)), st')
    /\ (utf8.valid newOwner = true -> utf8.coerce newOwner = newOwner)
    /\ (forall k, k <> id -> state st' !! k = state st !! k).
Proof.
  intros G D U P. destruct (Unmarshal_encodable _ _ U) as ((Hc & Hi & _) & Hv & Hs).
  eexists. split; [|split; [|split]].
  - rewrite (TransferAsset_present _ _ _ _ _ G D U). apply (put_ok _ _ _ P).
  - destruct (read_after_put st id
      (mkAsset (AppraisedValue a) (Color a) (ID a) newOwner (Size a)) G Hs Hv)
      as [R _].
    rewrite R. unfold coerce_asset. cbn [AppraisedValue Color ID Owner Size].
    now rewrite (utf8_facts.valid_coerce _ Hc), (utf8_facts.valid_coerce _ Hi).
  - apply utf8_facts.valid_coerce.
  - intros k Hk. cbn [state with_state]. now apply lookup_insert_ne.
Qed.

Lemma C4_transfer_witness :
  exists st',
    TransferAsset "asset1" "Brad" oneAssetStub = (Ok tt, st')
    /\ ReadAsset "asset1" st'
       = (Ok (mkAsset 300 "blue" "asset1" "Brad" 5), st').
Proof.
  destruct (C4_transfer oneAssetStub "asset1" "Brad"
              (json.encodeAsset (mkAsset 300 "blue" "asset1" "Tomoko" 5))
              (mkAsset 300 "blue" "asset1" "Tomoko" 5))
    as (st' & H1 & H2 & _);
    [reflexivity|vm_compute; reflexivity|vm_compute; reflexivity|reflexivity|].
  exists st'. split; [exact H1|exact H2].
Defined.

(** C4, as stated, fails on a new owner that is not UTF-8: the owner of the
    record stored after the transfer is the replacement character. *)
Lemma C4_counterexample :
  exists st',
    TransferAsset "asset1" invalidString oneAssetStub = (Ok tt, st')
    /\ ReadAsset "asset1" st'
       = (Ok (mkAsset 300 "blue" "asset1" utf8.replacement 5), st')
    /\ String.eqb utf8.replacement invalidString = false.
Proof.
  eexists. split; [vm_compute; reflexivity|].
  split; vm_compute; reflexivity.
Qed.

(** C5 (amended).  For every id that has a value in the world state,
    whatever that value is, and every argument tuple, when the read and the
    write of the stub succeed, [UpdateAsset] succeeds and a [ReadAsset] of
    the id that follows returns the tuple with its three strings coerced to
    well-formed UTF-8, and nothing of the value stored before; it returns
    exactly the tuple when the three strings are well-formed UTF-8. *)
Theorem C5_update_then_read st id color size owner appraisedValue v :
  getErr st id = None -> state st !! id = Some v ->
  putErr st id
    (json.encodeAsset (mkAsset appraisedValue color id owner size)) = None ->
  is_int size -> is_int appraisedValue ->
  exists st',
    UpdateAsset id color size owner appraisedValue st = (Ok tt, st')
    /\ ReadAsset id st'
       = (Ok (coerce_asset (mkAsset appraisedValue color id owner size)), st')
    /\ (valid_asset (mkAsset appraisedValue color id owner size) ->
        ReadAsset id st'
        = (Ok (mkAsset appraisedValue color id owner size), st')).
Proof.
  intros G D P Hs Hv. eexists. split.
  - rewrite (UpdateAsset_present _ _ _ _ _ _ _ G D). apply (put_ok _ _ _ P).
  - apply (read_after_put st id (mkAsset appraisedValue color id owner size));
      assumption.
Qed.

Lemma C5_update_then_read_witness :
  exists st',
    UpdateAsset "asset1" "red" 7 "Brad" 450 oneAssetStub = (Ok tt, st')
    /\ ReadAsset "asset1" st' = (Ok (mkAsset 450 "red" "asset1" "Brad" 7), st').
Proof.
  destruct (C5_update_then_read oneAssetStub "asset1" "red" 7 "Brad" 450
              (json.encodeAsset (mkAsset 300 "blue" "asset1" "Tomoko" 5)))
    as (st' & H1 & _ & H3);
    [reflexivity|vm_compute; reflexivity|reflexivity|apply is_int_small; lia
    |apply is_int_small; lia|].
  exists st'. split; [exact H1|]. apply H3. repeat split; reflexivity.
Defined.

(** C5, as stated, fails on an owner that is not UTF-8. *)
Lemma C5_counterexample :
  exists st',
    UpdateAsset "asset1" "red" 7 invalidString 450 oneAssetStub = (Ok tt, st')
    /\ ReadAsset "asset1" st'
       = (Ok (mkAsset 450 "red" "asset1" utf8.replacement 7), st')
    /\ String.eqb utf8.replacement invalidString = false.
Proof.
  eexists. split; [vm_compute; reflexivity|].
  split; vm_compute; reflexivity.
Qed.

(** C9 (amended).  For every id, when the read of the stub succeeds,
    [AssetExists] returns true if and only if the value returned for the id
    is not nil, whether or not it is empty; when the read fails, it fails
    with the error "Failed to read world state for asset with id %v" on the
    id.  The stub is left as it was in both cases. *)
Theorem C9_exists st id :
  (getErr st id = None ->
     exists b, AssetExists id st = (Ok b, st)
       /\ (b = true <-> exists v, state st !! id = Some v))
  /\ (forall e, getErr st id = Some e ->
        AssetExists id st
        = (Err (Errorf "Failed to read world state for asset with id %v"
                  (OpString id)), st)).
Proof.
  split.
  - intros G. eexists. split; [apply (AssetExists_ok _ _ G)|].
    destruct (state st !! id) as [v|]; split; intros H; eauto; try discriminate.
    now destruct H.
  - intros e G. apply (AssetExists_fail _ _ _ G).
Qed.

Lemma C9_exists_witness :
  exists b, AssetExists "asset1" oneAssetStub = (Ok b, oneAssetStub)
    /\ (b = true <-> exists v, state oneAssetStub !! "asset1" = Some v).
Proof.
  destruct (C9_exists oneAssetStub "asset1") as [H _].
  apply H. reflexivity.
Defined.

(** C9, as stated, fails on a value that is empty and not nil: the asset
    counts as existing. *)
Lemma C9_counterexample :
  state (singleStub "asset1" EmptyString) !! "asset1" = Some EmptyString
  /\ AssetExists "asset1" (singleStub "asset1" EmptyString)
     = (Ok true, singleStub "asset1" EmptyString).
Proof. split; vm_compute; reflexivity. Qed.


(** *** InitLedger *)

Lemma with_state_same st : with_state st (state st) = st.
Proof. now destruct st. Qed.

Lemma with_state_twice st m m' :
  with_state (with_state st m) m' = with_state st m'.
Proof. reflexivity. Qed.

Lemma put_all_snoc l a m :
  put_all (l ++ a :: nil) m = <[ID a := json.encodeAsset a]> (put_all l m).
Proof. unfold put_all. now rewrite fold_left_app. Qed.

(** The puts are a left-biased union with the map of the assets. *)
Lemma put_all_union l : forall m, put_all l m = put_all l ∅ ∪ m.
Proof.
  induction l as [|a l IH] using rev_ind; intros m.
  - cbn. now rewrite (left_id_L ∅ (∪)).
  - now rewrite !put_all_snoc, IH, insert_union_l.
Qed.

Lemma put_all_idem l m : put_all l (put_all l m) = put_all l m.
Proof.
  rewrite (put_all_union l (put_all l m)), (put_all_union l m).
  now rewrite (assoc_L (∪)), (idemp_L (∪)).
Qed.

Lemma put_all_other l k : forall m,
  (forall a, In a l -> ID a <> k) -> put_all l m !! k = m !! k.
Proof.
  induction l as [|a l IH]; intros m H; [reflexivity|].
  cbn [put_all fold_left]. change (put_all l (<[ID a:=json.encodeAsset a]> m) !! k = m !! k).
  rewrite IH by (intros b Hb; apply H; now right).
  apply lookup_insert_ne, H. now left.
Qed.

Lemma putAssets_run l : forall st, puts_ok st l ->
  putAssets l st = (Ok tt, with_state st (put_all l (state st))).
Proof.
  induction l as [|a l IH]; intros st H.
  - cbn. unfold ret. now rewrite with_state_same.
  - cbn [putAssets]. unfold bind at 1, of_json, json.Marshal, ret.
    unfold bind, on_error, PutState. rewrite (H a) by now left.
    rewrite IH by (intros b Hb; apply (H b); now right). reflexivity.
Qed.

Lemma putAssets_stop l1 : forall st a l2 e, puts_ok st l1 ->
  putErr st (ID a) (json.encodeAsset a) = Some e ->
  putAssets (l1 ++ a :: l2) st
  = (Err (Errorf "Failed to put to world state. %v" (OpError e)),
     with_state st (put_all l1 (state st))).
Proof.
  induction l1 as [|b l1 IH]; intros st a l2 e H E.
  - cbn [app putAssets]. unfold bind at 1, of_json, json.Marshal, ret.
    unfold bind, on_error, PutState. rewrite E. cbn. now rewrite with_state_same.
  - cbn [app putAssets]. unfold bind at 1, of_json, json.Marshal, ret.
    unfold bind, on_error, PutState. rewrite (H b) by now left.
    rewrite (IH _ a l2 e); [reflexivity| |exact E].
    intros c Hc. apply (H c). now right.
Qed.

Lemma putAssets_Ok l : forall st st', putAssets l st = (Ok tt, st') ->
  puts_ok st l.
Proof.
  induction l as [|a l IH]; intros st st' H b Hb; [destruct Hb|].
  cbn [putAssets] in H. unfold bind at 1, of_json, json.Marshal, ret in H.
  unfold bind, on_error, PutState in H.
  destruct (putErr st (ID a) (json.encodeAsset a)) eqn:E; [discriminate|].
  destruct Hb as [<-|Hb]; [exact E|]. exact (IH _ _ H b Hb).
Qed.

Lemma seed_decodes a : In a seedAssets ->
  json.Unmarshal (json.encodeAsset a) = inl a.
Proof.
  intros H. repeat (destruct H as [<-|H]; [vm_compute; reflexivity|]).
  destruct H.
Qed.

(** C6.  [InitLedger] is idempotent: from every world state, a run of
    [InitLedger] that succeeds leaves a stub on which a second run succeeds
    and changes nothing.  After the first run the key of each of the six
    assets, asset1 to asset6, holds the encoding of that asset, which
    decodes to it, whatever the key held before; the value of every other
    key is as it was, so that no other key is added. *)
Theorem C6_init_idempotent st st1 :
  InitLedger st = (Ok tt, st1) ->
  InitLedger st1 = (Ok tt, st1)
  /\ map ID seedAssets
     = "asset1" :: "asset2" :: "asset3" :: "asset4" :: "asset5" :: "asset6" :: nil
  /\ (forall a, In a seedAssets ->
        state st1 !! ID a = Some (json.encodeAsset a)
        /\ json.Unmarshal (json.encodeAsset a) = inl a)
  /\ (forall k, (forall a, In a seedAssets -> ID a <> k) ->
        state st1 !! k = state st !! k).
Proof.
  unfold InitLedger. intros H. pose proof (putAssets_Ok _ _ _ H) as P.
  rewrite (putAssets_run _ _ P) in H.
  apply (f_equal snd) in H. cbn [snd] in H. subst st1.
  split; [|split; [reflexivity|split]].
  - rewrite putAssets_run by exact P.
    rewrite with_state_twice. cbn [state with_state].
    now rewrite put_all_idem.
  - intros a Ha. split; [|now apply seed_decodes]. cbn [state with_state].
    repeat (destruct Ha as [<-|Ha];
            [cbn [put_all fold_left seedAssets ID];
             repeat (rewrite lookup_insert_ne by discriminate);
             apply lookup_insert_eq|]).
    destruct Ha.
  - intros k Hk. cbn [state with_state]. now apply put_all_other.
Qed.

Lemma C6_init_idempotent_witness :
  exists st1, InitLedger oneAssetStub = (Ok tt, st1)
    /\ InitLedger st1 = (Ok tt, st1).
Proof.
  exists (snd (InitLedger oneAssetStub)).
  assert (H : InitLedger oneAssetStub = (Ok tt, snd (InitLedger oneAssetStub)))
    by (vm_compute; reflexivity).
  split; [exact H|].
  exact (proj1 (C6_init_idempotent oneAssetStub _ H)).
Defined.

(** C7 (amended).  When a put fails during [InitLedger], [InitLedger]
    stops: the assets before the one whose put failed are written, that one
    and the ones after it are not.  The error returned is not the error of
    the put: it is a new error made by [fmt.Errorf] from the format "Failed
    to put to world state. %v" and the error of the put. *)
Theorem C7_init_put_failure st (l1 : list Asset) a l2 e :
  seedAssets = (l1 ++ a :: l2)%list -> puts_ok st l1 ->
  putErr st (ID a) (json.encodeAsset a) = Some e ->
  InitLedger st
  = (Err (Errorf "Failed to put to world state. %v" (OpError e)),
     with_state st (put_all l1 (state st))).
Proof.
  intros S H E. unfold InitLedger. rewrite S. now apply putAssets_stop.
Qed.

Lemma C7_init_put_failure_witness :
  InitLedger (failingKeyStub "asset3" (StubError "unavailable"))
  = (Err (Errorf "Failed to put to world state. %v"
            (OpError (StubError "unavailable"))),
     with_state (failingKeyStub "asset3" (StubError "unavailable"))
       (put_all (mkAsset 300 "blue" "asset1" "Tomoko" 5
                 :: mkAsset 400 "red" "asset2" "Brad" 5 :: nil) ∅)).
Proof.
  apply (C7_init_put_failure (failingKeyStub "asset3" (StubError "unavailable"))
           (mkAsset 300 "blue" "asset1" "Tomoko" 5
            :: mkAsset 400 "red" "asset2" "Brad" 5 :: nil)
           (mkAsset 500 "green" "asset3" "Jin Soo" 10)
           (mkAsset 600 "yellow" "asset4" "Max" 10
            :: mkAsset 700 "black" "asset5" "Adriana" 15
            :: mkAsset 800 "white" "asset6" "Michel" 15 :: nil)).
  - reflexivity.
  - intros b [<-|[<-|[]]]; reflexivity.
  - reflexivity.
Defined.

(** C7, as stated, fails on a stub whose first put fails: the error
    returned is the one of [fmt.Errorf], not the error of the put. *)
Lemma C7_counterexample :
  putErr (failingPutStub (StubError "unavailable")) "asset1"
    (json.encodeAsset (mkAsset 300 "blue" "asset1" "Tomoko" 5))
  = Some (StubError "unavailable")
  /\ InitLedger (failingPutStub (StubError "unavailable"))
     = (Err (Errorf "Failed to put to world state. %v"
               (OpError (StubError "unavailable"))),
        failingPutStub (StubError "unavailable")).
Proof. split; reflexivity. Qed.


(** *** When decoding fails *)




(** *** The decoder against the definition of a malformed record *)























(** *** The key/ID agreement *)

Lemma agree_insert m k a :
  key_id_agree m -> json.Unmarshal (json.encodeAsset a) = inl (coerce_asset a) ->
  utf8.coerce (ID a) = k ->
  key_id_agree (<[k := json.encodeAsset a]> m).
Proof.
  intros H U E k' v L. destruct (decide (k = k')) as [<-|N].
  - rewrite lookup_insert_eq in L. injection L as <-.
    exists (coerce_asset a). split; [exact U|exact E].
  - rewrite lookup_insert_ne in L by exact N. exact (H _ _ L).
Qed.

Lemma agree_delete m k : key_id_agree m -> key_id_agree (delete k m).
Proof.
  intros H k' v L. destruct (decide (k = k')) as [<-|N].
  - now rewrite lookup_delete_eq in L.
  - rewrite lookup_delete_ne in L by exact N. exact (H _ _ L).
Qed.

Lemma agree_put_all l : forall m, key_id_agree m ->
  (forall a, In a l -> json.Unmarshal (json.encodeAsset a) = inl a) ->
  key_id_agree (put_all l m).
Proof.
  induction l as [|a l IH]; intros m H U; [exact H|].
  cbn [put_all fold_left]. apply IH; [|intros b Hb; apply U; now right].
  pose proof (U a (or_introl eq_refl)) as Ua.
  destruct (Unmarshal_encodable _ _ Ua) as (V & Hv & Hs).
  apply agree_insert; [exact H| |].
  - now rewrite (Unmarshal_encodeAsset a Hv Hs), (coerce_asset_valid a V) in *.
  - apply utf8_facts.valid_coerce, V.
Qed.

(** What a successful call has done to the stub. *)
Lemma CreateAsset_Ok st st' id color size owner appraisedValue :
  CreateAsset id color size owner appraisedValue st = (Ok tt, st') ->
  st' = with_state st
    (<[id := json.encodeAsset (mkAsset appraisedValue color id owner size)]>
       (state st)).
Proof.
  unfold CreateAsset, AssetExists, bind, on_error, GetState, ret, fail,
    of_json, json.Marshal, PutState.
  destruct (getErr st id); [discriminate|].
  destruct (state st !! id); [discriminate|].
  unfold ret; cbv beta iota.
  match goal with |- context [putErr st id ?x] => destruct (putErr st id x) end;
    [discriminate|]. now intros [= <-].
Qed.

Lemma UpdateAsset_Ok st st' id color size owner appraisedValue :
  UpdateAsset id color size owner appraisedValue st = (Ok tt, st') ->
  st' = with_state st
    (<[id := json.encodeAsset (mkAsset appraisedValue color id owner size)]>
       (state st)).
Proof.
  unfold UpdateAsset, AssetExists, bind, on_error, GetState, ret, fail,
    of_json, json.Marshal, PutState.
  destruct (getErr st id); [discriminate|].
  destruct (state st !! id); [|discriminate]. cbn [negb].
  unfold ret; cbv beta iota.
  match goal with |- context [putErr st id ?x] => destruct (putErr st id x) end;
    [discriminate|]. now intros [= <-].
Qed.

Lemma DeleteAsset_Ok st st' id :
  DeleteAsset id st = (Ok tt, st') ->
  st' = with_state st (delete id (state st)).
Proof.
  unfold DeleteAsset, AssetExists, bind, on_error, GetState, ret, fail,
    DelState.
  destruct (getErr st id); [discriminate|].
  destruct (state st !! id); [|discriminate]. cbn [negb].
  destruct (delErr st id); [discriminate|]. now intros [= <-].
Qed.

Lemma TransferAsset_Ok st st' id newOwner :
  TransferAsset id newOwner st = (Ok tt, st') ->
  exists data a, state st !! id = Some data /\ json.Unmarshal data = inl a
    /\ st' = with_state st
         (<[id := json.encodeAsset
              (mkAsset (AppraisedValue a) (Color a) (ID a) newOwner (Size a))]>
            (state st)).
Proof.
  unfold TransferAsset, ReadAsset, bind, on_error, GetState, ret, fail.
  destruct (getErr st id); [discriminate|].
  destruct (state st !! id) as [data|]; [|discriminate].
  unfold of_json, json.Marshal, ret, fail, PutState.
  destruct (json.Unmarshal data) as [a|] eqn:U; [|discriminate].
  unfold ret; cbv beta iota.
  match goal with |- context [putErr st id ?x] => destruct (putErr st id x) end;
    [discriminate|]. intros [= <-].
  now exists data, a.
Qed.

(** C10 (amended).  If every value of the world state decodes to an asset
    whose ID is the key the value is stored under, this is still so after
    [InitLedger], [DeleteAsset] or [TransferAsset] succeeds, and after
    [CreateAsset] or [UpdateAsset] succeeds on an id that is well-formed
    UTF-8. *)
Theorem C10_key_id_agreement st st' :
  key_id_agree (state st) ->
  (InitLedger st = (Ok tt, st') -> key_id_agree (state st'))
  /\ (forall id color size owner appraisedValue,
        utf8.valid id = true -> is_int size -> is_int appraisedValue ->
        CreateAsset id color size owner appraisedValue st = (Ok tt, st') ->
        key_id_agree (state st'))
  /\ (forall id color size owner appraisedValue,
        utf8.valid id = true -> is_int size -> is_int appraisedValue ->
        UpdateAsset id color size owner appraisedValue st = (Ok tt, st') ->
        key_id_agree (state st'))
  /\ (forall id, DeleteAsset id st = (Ok tt, st') -> key_id_agree (state st'))
  /\ (forall id newOwner,
        TransferAsset id newOwner st = (Ok tt, st') ->
        key_id_agree (state st')).
Proof.
  intros A. split; [|split; [|split; [|split]]].
  - unfold InitLedger. intros H. pose proof (putAssets_Ok _ _ _ H) as P.
    rewrite (putAssets_run _ _ P) in H.
    apply (f_equal snd) in H. cbn [snd] in H. subst st'.
    cbn [state with_state]. apply agree_put_all; [exact A|apply seed_decodes].
  - intros id color size owner av V Hs Hv H.
    rewrite (CreateAsset_Ok _ _ _ _ _ _ _ H). cbn [state with_state].
    apply agree_insert; [exact A|now apply Unmarshal_encodeAsset|].
    now apply utf8_facts.valid_coerce.
  - intros id color size owner av V Hs Hv H.
    rewrite (UpdateAsset_Ok _ _ _ _ _ _ _ H). cbn [state with_state].
    apply agree_insert; [exact A|now apply Unmarshal_encodeAsset|].
    now apply utf8_facts.valid_coerce.
  - intros id H. rewrite (DeleteAsset_Ok _ _ _ H). cbn [state with_state].
    now apply agree_delete.
  - intros id newOwner H.
    destruct (TransferAsset_Ok _ _ _ _ H) as (data & a & D & U & ->).
    cbn [state with_state].
    destruct (A _ _ D) as (a' & U' & E). rewrite U in U'. injection U' as <-.
    destruct (Unmarshal_encodable _ _ U) as ((_ & Vi & _) & Hv & Hs).
    apply agree_insert; [exact A|now apply Unmarshal_encodeAsset|].
    cbn [ID]. now rewrite (utf8_facts.valid_coerce _ Vi).
Qed.

Lemma C10_key_id_agreement_witness :
  exists st',
    TransferAsset "asset1" "Brad" oneAssetStub = (Ok tt, st')
    /\ key_id_agree (state st').
Proof.
  exists (snd (TransferAsset "asset1" "Brad" oneAssetStub)).
  assert (H : TransferAsset "asset1" "Brad" oneAssetStub
              = (Ok tt, snd (TransferAsset "asset1" "Brad" oneAssetStub)))
    by (vm_compute; reflexivity).
  split; [exact H|].
  refine (proj2 (proj2 (proj2 (proj2
    (C10_key_id_agreement oneAssetStub _ _)))) "asset1" "Brad" H).
  intros k v L. unfold oneAssetStub in L. cbn [state with_state] in L.
  apply lookup_insert_Some in L as [[<- <-]|[_ L]].
  - eexists. split; [vm_compute; reflexivity|reflexivity].
  - rewrite lookup_empty in L. discriminate.
Defined.

(** C10, as stated, fails on an id that is not UTF-8: on the empty world
    state, where the agreement holds, [CreateAsset] succeeds and the value
    stored under the key decodes to an asset whose ID is the replacement
    character, not the key. *)
Lemma C10_counterexample :
  exists st' v,
    CreateAsset invalidString "red" 5 "Brad" 400 emptyStub = (Ok tt, st')
    /\ state st' !! invalidString = Some v
    /\ json.Unmarshal v = inl (mkAsset 400 "red" utf8.replacement "Brad" 5)
    /\ String.eqb utf8.replacement invalidString = false.
Proof.
  eexists _, _. split; [vm_compute; reflexivity|].
  split; [vm_compute; reflexivity|]. split; vm_compute; reflexivity.
Qed.

End atcc_facts.

(** ** The ledger as a whole: GetAllAssets, and how the calls compose *)

Module ledger_facts.
Import json_facts atcc_facts.


(** *** The order of the keys *)

Lemma leb_trans a : forall b c,
  String.leb a b = true -> String.leb b c = true -> String.leb a c = true.
Proof.
  unfold String.leb.
  induction a as [|x a IH]; intros [|y b] [|z c]; cbn [String.compare];
    try (intros; reflexivity || discriminate).
  unfold Ascii.compare.
  destruct (N.compare_spec (N_of_ascii x) (N_of_ascii y)) as [E1|L1|G1];
    destruct (N.compare_spec (N_of_ascii y) (N_of_ascii z)) as [E2|L2|G2];
    destruct (N.compare_spec (N_of_ascii x) (N_of_ascii z)) as [E3|L3|G3];
    try lia; try (intros; reflexivity || discriminate).
  apply IH.
Qed.

#[global] Instance key_le_trans : Transitive key_le.
Proof. intros a b c. unfold key_le. apply leb_trans. Qed.

#[global] Instance key_le_total : Total key_le.
Proof. intros a b. unfold key_le. apply String.leb_total. Qed.

Lemma StronglySorted_filter {A} (R : A -> A -> Prop) (f : A -> bool) l :
  StronglySorted R l -> StronglySorted R (List.filter f l).
Proof.
  induction 1 as [|x l S IH F]; cbn [List.filter]; [constructor|].
  destruct (f x); [|exact IH]. constructor; [exact IH|].
  rewrite List.Forall_forall in F |- *. intros y Hy.
  apply List.filter_In in Hy as [Hy _]. now apply F.
Qed.

Lemma all_entries_sorted st : StronglySorted key_le (all_entries st).
Proof.
  unfold all_entries, range_entries.
  apply StronglySorted_filter, StronglySorted_merge_sort; apply _.
Qed.

Lemma all_entries_In st k v :
  In (k, v) (all_entries st)
  <-> state st !! k = Some v /\ String.leb emptyKeySubstitute k = true.
Proof.
  unfold all_entries, range_entries. rewrite List.filter_In.
  rewrite <- list_elem_of_In, merge_sort_Permutation, elem_of_map_to_list.
  unfold in_range. cbn [fst String.eqb orb]. now rewrite andb_true_r.
Qed.

Lemma all_entries_NoDup st : List.NoDup (map fst (all_entries st)).
Proof.
  unfold all_entries, range_entries.
  assert (N : List.NoDup (map fst (merge_sort key_le (map_to_list (state st))))).
  { apply NoDup_ListNoDup.
    change (map fst ?l) with (l.*1).
    rewrite merge_sort_Permutation. apply NoDup_fst_map_to_list. }
  revert N. generalize (merge_sort key_le (map_to_list (state st))).
  induction l as [|[k v] l IH]; cbn [List.filter map]; [constructor|].
  intros N. inversion N as [|? ? Hk N']; subst.
  destruct (in_range _ _ _); [|now apply IH].
  cbn [map fst]. constructor; [|now apply IH].
  intros Hin. apply Hk. apply List.in_map_iff in Hin as ([k' v'] & E & Hin).
  apply List.filter_In in Hin as [Hin _]. apply List.in_map_iff.
  now exists (k', v').
Qed.


(** *** GetAllAssets *)

Lemma collectAssets_step st kv rest acc a :
  nextErr st (fst kv) = None -> decodes kv a ->
  collectAssets (kv :: rest) acc st = collectAssets rest (acc ++ a :: nil)%list st.
Proof.
  intros N D. cbn [collectAssets]. unfold bind at 1, Next. rewrite N.
  unfold bind at 1. unfold decodes in D. rewrite D. reflexivity.
Qed.

Lemma collectAssets_ok st it : forall acc assets,
  (forall kv, In kv it -> nextErr st (fst kv) = None) ->
  Forall2 decodes it assets ->
  collectAssets it acc st = (Ok (acc ++ assets)%list, st).
Proof.
  induction it as [|kv it IH]; intros acc assets N F.
  - apply Forall2_nil_inv_l in F as ->. now rewrite app_nil_r.
  - apply Forall2_cons_inv_l in F as (a & assets' & D & F & ->).
    rewrite (collectAssets_step _ _ _ _ a) by (auto using in_eq).
    rewrite (IH _ assets') by (auto using in_cons).
    now rewrite <- app_assoc.
Qed.

Lemma collectAssets_next_fails st kv rest acc e :
  nextErr st (fst kv) = Some e ->
  collectAssets (kv :: rest) acc st = (Err e, st).
Proof.
  intros N. cbn [collectAssets]. unfold bind at 1, Next. now rewrite N.
Qed.

Lemma collectAssets_decode_fails st kv rest acc e :
  nextErr st (fst kv) = None -> json.Unmarshal (snd kv) = inr e ->
  collectAssets (kv :: rest) acc st = (Err (JsonError e), st).
Proof.
  intros N D. cbn [collectAssets]. unfold bind at 1, Next. rewrite N.
  unfold bind at 1. now rewrite D.
Qed.

Lemma collectAssets_prefix st l1 : forall rest acc as1,
  (forall kv, In kv l1 -> nextErr st (fst kv) = None) ->
  Forall2 decodes l1 as1 ->
  collectAssets (l1 ++ rest)%list acc st = collectAssets rest (acc ++ as1)%list st.
Proof.
  induction l1 as [|kv l1 IH]; intros rest acc as1 N F.
  - apply Forall2_nil_inv_l in F as ->. now rewrite app_nil_r.
  - apply Forall2_cons_inv_l in F as (a & as1' & D & F & ->).
    cbn [app]. rewrite (collectAssets_step _ _ _ _ a) by (auto using in_eq).
    rewrite (IH _ _ as1') by (auto using in_cons).
    now rewrite <- app_assoc.
Qed.

Lemma collectAssets_Ok st it : forall acc r st',
  collectAssets it acc st = (Ok r, st') ->
  st' = st
  /\ (forall kv, In kv it -> nextErr st (fst kv) = None)
  /\ exists assets, r = (acc ++ assets)%list /\ Forall2 decodes it assets.
Proof.
  induction it as [|kv it IH]; intros acc r st' H.
  - injection H as <- <-. split; [reflexivity|]. split; [intros ? []|].
    exists nil. split; [now rewrite app_nil_r|constructor].
  - destruct (nextErr st (fst kv)) as [e|] eqn:N;
      [now rewrite (collectAssets_next_fails _ _ _ _ _ N) in H|].
    destruct (json.Unmarshal (snd kv)) as [a|e] eqn:D;
      [|now rewrite (collectAssets_decode_fails _ _ _ _ _ N D) in H].
    rewrite (collectAssets_step _ _ _ _ a N D) in H.
    destruct (IH _ _ _ H) as (-> & N' & assets & -> & F).
    split; [reflexivity|]. split; [intros kv' [<-|Hin]; auto|].
    exists (a :: assets). split; [now rewrite <- app_assoc|].
    now constructor.
Qed.

Lemma collectAssets_readonly it : forall acc st,
  snd (collectAssets it acc st) = st.
Proof.
  induction it as [|kv it IH]; intros acc st; [reflexivity|].
  destruct (nextErr st (fst kv)) as [e|] eqn:N;
    [now rewrite (collectAssets_next_fails _ _ _ _ _ N)|].
  destruct (json.Unmarshal (snd kv)) as [a|e] eqn:D;
    [|now rewrite (collectAssets_decode_fails _ _ _ _ _ N D)].
  rewrite (collectAssets_step _ _ _ _ a N D). apply IH.
Qed.

Lemma GetAllAssets_run st : rangeErr st EmptyString EmptyString = None ->
  GetAllAssets st = collectAssets (all_entries st) nil st.
Proof.
  intros R. unfold GetAllAssets, bind, GetStateByRange. now rewrite R.
Qed.

Lemma Forall2_In_l {A B} (P : A -> B -> Prop) l1 l2 x :
  Forall2 P l1 l2 -> In x l1 -> exists y, In y l2 /\ P x y.
Proof.
  induction 1 as [|a b l1 l2 H F IH]; intros Hin; [destruct Hin|].
  destruct Hin as [<-|Hin]; [exists b; split; [now left|exact H]|].
  destruct (IH Hin) as (y & Hy & Py). exists y. split; [now right|exact Py].
Qed.

Lemma Forall2_In_r {A B} (P : A -> B -> Prop) l1 l2 y :
  Forall2 P l1 l2 -> In y l2 -> exists x, In x l1 /\ P x y.
Proof.
  induction 1 as [|a b l1 l2 H F IH]; intros Hin; [destruct Hin|].
  destruct Hin as [<-|Hin]; [exists a; split; [now left|exact H]|].
  destruct (IH Hin) as (x & Hx & Px). exists x. split; [now right|exact Px].
Qed.


Lemma decode_all it :
  (forall kv, In kv it -> exists a, decodes kv a) ->
  exists assets, Forall2 decodes it assets.
Proof.
  induction it as [|kv it IH]; intros H; [exists nil; constructor|].
  destruct (H kv (in_eq _ _)) as [a D].
  destruct IH as [assets F]; [intros; apply H; now right|].
  exists (a :: assets). now constructor.
Qed.

(** X1.  When [GetAllAssets] returns a list, the stub is as it was and the
    list is the decoding, entry by entry, of the entries of the world state
    whose keys are simple keys (from U+0001 up), each key once, taken in the
    ascending order of the keys. *)
Theorem GetAllAssets_lists_world_state st assets st' :
  GetAllAssets st = (Ok assets, st') ->
  st' = st
  /\ exists entries,
       StronglySorted key_le entries
       /\ List.NoDup (map fst entries)
       /\ (forall k v, In (k, v) entries
             <-> state st !! k = Some v
                 /\ String.leb emptyKeySubstitute k = true)
       /\ Forall2 decodes entries assets.
Proof.
  intros H.
  destruct (rangeErr st EmptyString EmptyString) as [e|] eqn:R.
  { unfold GetAllAssets, bind, GetStateByRange in H. rewrite R in H.
    discriminate. }
  rewrite (GetAllAssets_run _ R) in H.
  destruct (collectAssets_Ok _ _ _ _ _ H) as (-> & _ & l & -> & F).
  split; [reflexivity|]. exists (all_entries st).
  split; [apply all_entries_sorted|]. split; [apply all_entries_NoDup|].
  split; [apply all_entries_In|exact F].
Qed.

Lemma GetAllAssets_lists_world_state_witness :
  exists entries,
    StronglySorted key_le entries
    /\ List.NoDup (map fst entries)
    /\ (forall k v, In (k, v) entries
          <-> state seededStub !! k = Some v
              /\ String.leb emptyKeySubstitute k = true)
    /\ Forall2 decodes entries seedAssets.
Proof.
  refine (proj2 (GetAllAssets_lists_world_state seededStub seedAssets
                   seededStub _)).
  vm_compute. reflexivity.
Defined.

Lemma GetAllAssets_decodes_all st :
  rangeErr st EmptyString EmptyString = None ->
  (forall k v, state st !! k = Some v -> nextErr st k = None) ->
  (forall k v, state st !! k = Some v ->
     String.leb emptyKeySubstitute k = true ->
     exists a, json.Unmarshal v = inl a) ->
  exists assets,
    GetAllAssets st = (Ok assets, st)
    /\ length assets = length (all_entries st).
Proof.
  intros R N D.
  destruct (decode_all (all_entries st)) as [assets F].
  { intros [k v] Hin. apply all_entries_In in Hin as [L Hk].
    exact (D k v L Hk). }
  exists assets. split; [|symmetry; exact (Forall2_length _ _ _ F)].
  rewrite (GetAllAssets_run _ R).
  apply (collectAssets_ok st (all_entries st) nil assets); [|exact F].
  intros [k v] Hin. apply all_entries_In in Hin as [L _]. exact (N k v L).
Qed.

(** X2.  When the range query and its iterator succeed and every value
    stored under a simple key decodes, [GetAllAssets] succeeds, and returns
    as many assets as the world state has simple keys. *)
Theorem GetAllAssets_succeeds st :
  rangeErr st EmptyString EmptyString = None ->
  (forall k v, state st !! k = Some v -> nextErr st k = None) ->
  (forall k v, state st !! k = Some v ->
     String.leb emptyKeySubstitute k = true ->
     exists a, json.Unmarshal v = inl a) ->
  exists assets,
    GetAllAssets st = (Ok assets, st)
    /\ length assets = length (all_entries st).
Proof. exact (GetAllAssets_decodes_all st). Qed.

Lemma GetAllAssets_succeeds_witness :
  exists assets,
    GetAllAssets oneAssetStub = (Ok assets, oneAssetStub)
    /\ length assets = length (all_entries oneAssetStub).
Proof.
  apply (GetAllAssets_succeeds oneAssetStub); [reflexivity|reflexivity|].
  intros k v L _. unfold oneAssetStub in L. cbn [state with_state] in L.
  apply lookup_insert_Some in L as [[_ <-]|[_ L]].
  - eexists. vm_compute. reflexivity.
  - rewrite lookup_empty in L. discriminate.
Defined.

(** X3.  An error of the range query, and an error of the iterator at an
    entry before which every entry was delivered and decoded, are returned
    by [GetAllAssets] as they are, with no asset; the stub is as it was. *)
Theorem GetAllAssets_store_error st e :
  (rangeErr st EmptyString EmptyString = Some e ->
   GetAllAssets st = (Err e, st))
  /\ (forall l1 kv l2 as1,
        rangeErr st EmptyString EmptyString = None ->
        all_entries st = (l1 ++ kv :: l2)%list ->
        (forall kv', In kv' l1 -> nextErr st (fst kv') = None) ->
        Forall2 decodes l1 as1 ->
        nextErr st (fst kv) = Some e ->
        GetAllAssets st = (Err e, st)).
Proof.
  split.
  - intros R. unfold GetAllAssets, bind, GetStateByRange. now rewrite R.
  - intros l1 kv l2 as1 R E N F Nk.
    rewrite (GetAllAssets_run _ R), E.
    rewrite (collectAssets_prefix _ _ _ _ as1 N F).
    apply (collectAssets_next_fails _ _ _ _ _ Nk).
Qed.

Lemma GetAllAssets_store_error_witness :
  GetAllAssets (failingRangeStub (state seededStub) (StubError "unavailable"))
  = (Err (StubError "unavailable"),
     failingRangeStub (state seededStub) (StubError "unavailable"))
  /\ GetAllAssets
       (failingNextStub (state seededStub) "asset2" (StubError "unavailable"))
     = (Err (StubError "unavailable"),
        failingNextStub (state seededStub) "asset2" (StubError "unavailable")).
Proof.
  split.
  - apply (proj1 (GetAllAssets_store_error _ _)). reflexivity.
  - apply (proj2 (GetAllAssets_store_error
        (failingNextStub (state seededStub) "asset2" (StubError "unavailable"))
        (StubError "unavailable"))
        (("asset1", json.encodeAsset (mkAsset 300 "blue" "asset1" "Tomoko" 5))
           :: nil)
        ("asset2", json.encodeAsset (mkAsset 400 "red" "asset2" "Brad" 5))
        (List.skipn 2 (all_entries seededStub))
        (mkAsset 300 "blue" "asset1" "Tomoko" 5 :: nil)).
    + reflexivity.
    + vm_compute. reflexivity.
    + intros kv' [<-|[]]. reflexivity.
    + repeat constructor.
    + reflexivity.
Defined.


Lemma collectAssets_cases st it : forall acc,
  (forall kv, In kv it -> nextErr st (fst kv) = None) ->
  (exists assets, collectAssets it acc st = (Ok assets, st))
  \/ (exists kv e, In kv it /\ json.Unmarshal (snd kv) = inr e
        /\ collectAssets it acc st = (Err (JsonError e), st)).
Proof.
  induction it as [|kv it IH]; intros acc N; [left; now exists acc|].
  pose proof (N kv (in_eq _ _)) as Nk.
  destruct (json.Unmarshal (snd kv)) as [a|e] eqn:D.
  - rewrite (collectAssets_step _ _ _ _ a Nk D).
    destruct (IH (acc ++ a :: nil)%list) as [H|(kv' & e & Hin & D' & H)];
      [intros; apply N; now right|now left|].
    right. exists kv', e. split; [now right|now split].
  - right. exists kv, e. split; [now left|]. split; [exact D|].
    apply (collectAssets_decode_fails _ _ _ _ _ Nk D).
Qed.

(** X4.  One value under a simple key that does not decode makes
    [GetAllAssets] fail as a whole: when the range query and its iterator
    succeed, it returns no asset and the error that [json.Unmarshal] gave
    for a value of the world state, as it is; the stub is as it was. *)
Theorem GetAllAssets_undecodable st k v e :
  rangeErr st EmptyString EmptyString = None ->
  (forall k' v', state st !! k' = Some v' -> nextErr st k' = None) ->
  state st !! k = Some v -> String.leb emptyKeySubstitute k = true ->
  json.Unmarshal v = inr e ->
  exists k' v' e',
    state st !! k' = Some v' /\ json.Unmarshal v' = inr e'
    /\ GetAllAssets st = (Err (JsonError e'), st).
Proof.
  intros R N L Hk D. rewrite (GetAllAssets_run _ R).
  destruct (collectAssets_cases st (all_entries st) nil)
    as [[assets H]|([k' v'] & e' & Hin & D' & H)].
  - intros [k' v'] Hin. apply all_entries_In in Hin as [L' _].
    exact (N _ _ L').
  - destruct (collectAssets_Ok _ _ _ _ _ H) as (_ & _ & l & _ & F).
    destruct (Forall2_In_l _ _ _ (k, v) F) as (a & _ & Da).
    { apply all_entries_In. now split. }
    unfold decodes in Da. cbn [snd] in Da. congruence.
  - exists k', v', e'. apply all_entries_In in Hin as [L' _]. now split.
Qed.

Lemma GetAllAssets_undecodable_witness :
  exists k' v' e',
    state (singleStub "asset1" "[]") !! k' = Some v'
    /\ json.Unmarshal v' = inr e'
    /\ GetAllAssets (singleStub "asset1" "[]")
       = (Err (JsonError e'), singleStub "asset1" "[]").
Proof.
  apply (GetAllAssets_undecodable (singleStub "asset1" "[]") "asset1" "[]"
           (json.UnmarshalTypeError EmptyString));
    try reflexivity; vm_compute; reflexivity.
Defined.

(** X5.  The three functions that only query, [GetAllAssets], [ReadAsset]
    and [AssetExists], never change the stub, whatever they return. *)
Theorem queries_change_nothing st id :
  snd (GetAllAssets st) = st /\ snd (ReadAsset id st) = st
  /\ snd (AssetExists id st) = st.
Proof.
  split; [|split].
  - unfold GetAllAssets, bind, GetStateByRange.
    destruct (rangeErr st EmptyString EmptyString); [reflexivity|].
    apply collectAssets_readonly.
  - unfold ReadAsset, bind, on_error, GetState.
    destruct (getErr st id); [reflexivity|].
    destruct (state st !! id) as [data|]; [|reflexivity].
    unfold of_json, ret, fail. now destruct (json.Unmarshal data).
  - unfold AssetExists, bind, on_error, GetState, ret.
    now destruct (getErr st id).
Qed.

(** X6.  When the range query of the stub succeeds, on a world state
    without any simple key, the empty world state among them,
    [GetAllAssets] returns the empty list and no error. *)
Theorem GetAllAssets_empty st :
  rangeErr st EmptyString EmptyString = None ->
  (forall k v, state st !! k = Some v ->
     String.leb emptyKeySubstitute k = false) ->
  GetAllAssets st = (Ok nil, st).
Proof.
  intros R H. rewrite (GetAllAssets_run _ R).
  destruct (all_entries st) as [|[k v] l] eqn:E; [reflexivity|].
  assert (Hin : In (k, v) (all_entries st)) by (rewrite E; now left).
  apply all_entries_In in Hin as [L Hk]. rewrite (H _ _ L) in Hk.
  discriminate.
Qed.

Lemma GetAllAssets_empty_witness :
  GetAllAssets emptyStub = (Ok nil, emptyStub).
Proof.
  apply (GetAllAssets_empty emptyStub); [reflexivity|].
  intros k v L. cbn in L. rewrite lookup_empty in L. discriminate.
Defined.

(** X7.  Under the key/ID agreement, when the range query and its iterator
    succeed, [GetAllAssets] succeeds; the IDs of the assets it returns are
    the simple keys of the world state in ascending order, each once. *)
Theorem GetAllAssets_under_agreement st :
  key_id_agree (state st) ->
  rangeErr st EmptyString EmptyString = None ->
  (forall k v, state st !! k = Some v -> nextErr st k = None) ->
  exists assets,
    GetAllAssets st = (Ok assets, st)
    /\ map ID assets = map fst (all_entries st)
    /\ List.NoDup (map ID assets)
    /\ StronglySorted (fun a b => String.leb (ID a) (ID b) = true) assets.
Proof.
  intros A R N.
  destruct (GetAllAssets_decodes_all st R N) as (assets & H & _).
  { intros k v L _. destruct (A _ _ L) as (a & U & _). now exists a. }
  exists assets. split; [exact H|].
  pose proof H as H'. rewrite (GetAllAssets_run _ R) in H'. clear H.
  rename H' into H.
  destruct (collectAssets_Ok _ _ _ _ _ H) as (_ & _ & l & E & F).
  cbn [app] in E. subst l. clear H.
  assert (M : map ID assets = map fst (all_entries st)).
  { assert (Hin : forall kv, In kv (all_entries st) ->
                  state st !! fst kv = Some (snd kv)).
    { intros [k v] Hkv. now apply all_entries_In in Hkv as [L _]. }
    revert Hin. induction F as [|[k v] a l1 l2 D F IH]; intros Hin;
      [reflexivity|].
    cbn [map fst]. rewrite IH by (intros; apply Hin; now right).
    f_equal. destruct (A k v (Hin (k, v) (in_eq _ _))) as (a' & U & <-).
    unfold decodes in D. cbn [snd] in D. congruence. }
  split; [exact M|]. split; [rewrite M; apply all_entries_NoDup|].
  pose proof (all_entries_sorted st) as S. revert M S.
  generalize (all_entries st). clear.
  induction assets as [|a assets IH]; intros [|kv l] M S;
    try discriminate; [constructor|].
  injection M as Ha M. inversion S as [|? ? S' F']; subst.
  constructor; [now apply (IH l)|].
  rewrite List.Forall_forall in F' |- *. intros b Hb.
  apply (List.in_map ID) in Hb. rewrite M in Hb.
  apply List.in_map_iff in Hb as (kv' & <- & Hb).
  rewrite Ha. exact (F' _ Hb).
Qed.

Lemma GetAllAssets_under_agreement_witness :
  exists assets,
    GetAllAssets oneAssetStub = (Ok assets, oneAssetStub)
    /\ map ID assets = map fst (all_entries oneAssetStub)
    /\ List.NoDup (map ID assets)
    /\ StronglySorted (fun a b => String.leb (ID a) (ID b) = true) assets.
Proof.
  apply (GetAllAssets_under_agreement oneAssetStub);
    [|reflexivity|reflexivity].
  intros k v L. unfold oneAssetStub in L. cbn [state with_state] in L.
  apply lookup_insert_Some in L as [[<- <-]|[_ L]].
  - eexists. split; [vm_compute; reflexivity|reflexivity].
  - rewrite lookup_empty in L. discriminate.
Defined.


Lemma GetAllAssets_Ok st assets st' :
  GetAllAssets st = (Ok assets, st') ->
  Forall2 decodes (all_entries st) assets.
Proof.
  intros H.
  destruct (rangeErr st EmptyString EmptyString) as [e|] eqn:R.
  { unfold GetAllAssets, bind, GetStateByRange in H. rewrite R in H.
    discriminate. }
  rewrite (GetAllAssets_run _ R) in H.
  now destruct (collectAssets_Ok _ _ _ _ _ H) as (_ & _ & l & -> & F).
Qed.

(** What [GetAllAssets] returns holds the decoding of each value stored
    under a simple key. *)
Lemma GetAllAssets_holds st assets st' k v a :
  GetAllAssets st = (Ok assets, st') ->
  state st !! k = Some v -> String.leb emptyKeySubstitute k = true ->
  json.Unmarshal v = inl a -> In a assets.
Proof.
  intros H L Hk U. pose proof (GetAllAssets_Ok _ _ _ H) as F.
  destruct (Forall2_In_l _ _ _ (k, v) F) as (a' & Hin & D).
  { apply all_entries_In. now split. }
  unfold decodes in D. cbn [snd] in D. congruence.
Qed.

(** X8.  An asset created under a simple key is among the assets that a
    [GetAllAssets] that follows returns, with its strings coerced to
    well-formed UTF-8. *)
Theorem create_then_list st st1 st2 id color size owner appraisedValue assets :
  String.leb emptyKeySubstitute id = true ->
  is_int size -> is_int appraisedValue ->
  CreateAsset id color size owner appraisedValue st = (Ok tt, st1) ->
  GetAllAssets st1 = (Ok assets, st2) ->
  In (coerce_asset (mkAsset appraisedValue color id owner size)) assets.
Proof.
  intros Hk Hs Hv C G. apply CreateAsset_Ok in C. subst st1.
  eapply (GetAllAssets_holds _ _ _ id); [exact G| |exact Hk|].
  - cbn [state with_state]. apply lookup_insert_eq.
  - now apply Unmarshal_encodeAsset.
Qed.

Lemma create_then_list_witness :
  exists st1 assets,
    CreateAsset "asset7" "violet" 20 "Ana" 900 seededStub = (Ok tt, st1)
    /\ GetAllAssets st1 = (Ok assets, st1)
    /\ In (mkAsset 900 "violet" "asset7" "Ana" 20) assets.
Proof.
  exists (snd (CreateAsset "asset7" "violet" 20 "Ana" 900 seededStub)).
  exists (seedAssets ++ mkAsset 900 "violet" "asset7" "Ana" 20 :: nil)%list.
  assert (C : CreateAsset "asset7" "violet" 20 "Ana" 900 seededStub
              = (Ok tt, snd (CreateAsset "asset7" "violet" 20 "Ana" 900
                               seededStub)))
    by (vm_compute; reflexivity).
  assert (G : GetAllAssets
                (snd (CreateAsset "asset7" "violet" 20 "Ana" 900 seededStub))
              = (Ok (seedAssets ++ mkAsset 900 "violet" "asset7" "Ana" 20 :: nil)%list,
                 snd (CreateAsset "asset7" "violet" 20 "Ana" 900 seededStub)))
    by (vm_compute; reflexivity).
  split; [exact C|]. split; [exact G|].
  exact (create_then_list seededStub _ _ "asset7" "violet" 20 "Ana" 900 _
           eq_refl (is_int_small 20 ltac:(lia)) (is_int_small 900 ltac:(lia))
           C G).
Defined.

(** X9.  Under the key/ID agreement, after [DeleteAsset] succeeds on an id,
    no asset that a [GetAllAssets] that follows returns has that ID. *)
Theorem delete_then_list st st1 st2 id assets :
  key_id_agree (state st) ->
  DeleteAsset id st = (Ok tt, st1) ->
  GetAllAssets st1 = (Ok assets, st2) ->
  forall a, In a assets -> ID a <> id.
Proof.
  intros A D G a Ha. apply DeleteAsset_Ok in D. subst st1.
  pose proof (GetAllAssets_Ok _ _ _ G) as F.
  destruct (Forall2_In_r _ _ _ a F Ha) as ([k v] & Hin & Da).
  apply all_entries_In in Hin as [L _]. cbn [state with_state] in L.
  apply lookup_delete_Some in L as [Hk L].
  destruct (A _ _ L) as (a' & U & <-).
  unfold decodes in Da. cbn [snd] in Da. congruence.
Qed.

Lemma delete_then_list_witness :
  exists st1 assets,
    DeleteAsset "asset3" seededStub = (Ok tt, st1)
    /\ GetAllAssets st1 = (Ok assets, st1)
    /\ forall a, In a assets -> ID a <> "asset3".
Proof.
  exists (snd (DeleteAsset "asset3" seededStub)).
  exists (snd (List.partition (fun a => String.eqb (ID a) "asset3") seedAssets)).
  assert (D : DeleteAsset "asset3" seededStub
              = (Ok tt, snd (DeleteAsset "asset3" seededStub)))
    by (vm_compute; reflexivity).
  assert (G : GetAllAssets (snd (DeleteAsset "asset3" seededStub))
              = (Ok (snd (List.partition
                            (fun a => String.eqb (ID a) "asset3") seedAssets)),
                 snd (DeleteAsset "asset3" seededStub)))
    by (vm_compute; reflexivity).
  split; [exact D|]. split; [exact G|].
  refine (delete_then_list seededStub _ _ "asset3" _ _ D G).
  apply agree_put_all; [|apply seed_decodes].
  intros k v L. rewrite lookup_empty in L. discriminate.
Defined.

(** X10.  After [InitLedger] succeeds, from any world state, the six
    assets of [InitLedger] are among the assets that a [GetAllAssets] that
    follows returns. *)
Theorem init_then_list st st1 st2 assets :
  InitLedger st = (Ok tt, st1) ->
  GetAllAssets st1 = (Ok assets, st2) ->
  forall a, In a seedAssets -> In a assets.
Proof.
  unfold InitLedger. intros H G a Ha. pose proof (putAssets_Ok _ _ _ H) as P.
  rewrite (putAssets_run _ _ P) in H.
  apply (f_equal snd) in H. cbn [snd] in H. subst st1.
  apply (GetAllAssets_holds _ _ _ (ID a) (json.encodeAsset a) _ G).
  - cbn [state with_state].
    repeat (destruct Ha as [<-|Ha];
            [cbn [put_all fold_left seedAssets ID];
             repeat (rewrite lookup_insert_ne by discriminate);
             apply lookup_insert_eq|]).
    destruct Ha.
  - repeat (destruct Ha as [<-|Ha]; [reflexivity|]). destruct Ha.
  - now apply seed_decodes.
Qed.

Lemma init_then_list_witness :
  exists st1,
    InitLedger emptyStub = (Ok tt, st1)
    /\ GetAllAssets st1 = (Ok seedAssets, st1)
    /\ forall a, In a seedAssets -> In a seedAssets.
Proof.
  exists seededStub.
  assert (H : InitLedger emptyStub = (Ok tt, seededStub))
    by (vm_compute; reflexivity).
  assert (G : GetAllAssets seededStub = (Ok seedAssets, seededStub))
    by (vm_compute; reflexivity).
  split; [exact H|]. split; [exact G|].
  exact (init_then_list emptyStub seededStub seededStub seedAssets H G).
Defined.


(** *** Errors of the stub *)

(** X11.  When the point read of the stub fails, [ReadAsset],
    [CreateAsset], [UpdateAsset], [DeleteAsset] and [TransferAsset] all fail
    with the same new error, "Failed to read world state for asset with id
    %v" on the id, which holds nothing of the error of the stub; none of
    them writes. *)
Theorem read_failure_everywhere st id e :
  getErr st id = Some e ->
  let err :=
    Errorf "Failed to read world state for asset with id %v" (OpString id) in
  ReadAsset id st = (Err err, st)
  /\ (forall color size owner appraisedValue,
        CreateAsset id color size owner appraisedValue st = (Err err, st))
  /\ (forall color size owner appraisedValue,
        UpdateAsset id color size owner appraisedValue st = (Err err, st))
  /\ DeleteAsset id st = (Err err, st)
  /\ (forall newOwner, TransferAsset id newOwner st = (Err err, st)).
Proof.
  intros G err. pose proof (ReadAsset_fail _ _ _ G) as R.
  pose proof (AssetExists_fail _ _ _ G) as X.
  split; [exact R|]. split; [|split; [|split]]; intros.
  - unfold CreateAsset. now rewrite (bind_err _ _ _ _ _ X).
  - unfold UpdateAsset. now rewrite (bind_err _ _ _ _ _ X).
  - unfold DeleteAsset. now rewrite (bind_err _ _ _ _ _ X).
  - unfold TransferAsset. now rewrite (bind_err _ _ _ _ _ R).
Qed.

Lemma read_failure_everywhere_witness :
  ReadAsset "asset1"
    (failingGetStub (state oneAssetStub) (StubError "unavailable"))
  = (Err (Errorf "Failed to read world state for asset with id %v"
            (OpString "asset1")),
     failingGetStub (state oneAssetStub) (StubError "unavailable")).
Proof.
  refine (proj1 (read_failure_everywhere
    (failingGetStub (state oneAssetStub) (StubError "unavailable"))
    "asset1" (StubError "unavailable") _)).
  reflexivity.
Defined.

(** X12.  When the put of the stub fails, [CreateAsset] on an id without a
    value, [UpdateAsset] on an id with a value and [TransferAsset] on an id
    whose value decodes return the error of the put as it is, unlike
    [InitLedger]; the stub is as it was. *)
Theorem put_failure_unchanged st id e :
  getErr st id = None ->
  (forall color size owner appraisedValue,
     state st !! id = None ->
     putErr st id
       (json.encodeAsset (mkAsset appraisedValue color id owner size)) = Some e ->
     CreateAsset id color size owner appraisedValue st = (Err e, st))
  /\ (forall color size owner appraisedValue v,
        state st !! id = Some v ->
        putErr st id
          (json.encodeAsset (mkAsset appraisedValue color id owner size))
        = Some e ->
        UpdateAsset id color size owner appraisedValue st = (Err e, st))
  /\ (forall newOwner data a,
        state st !! id = Some data -> json.Unmarshal data = inl a ->
        putErr st id
          (json.encodeAsset
             (mkAsset (AppraisedValue a) (Color a) (ID a) newOwner (Size a)))
        = Some e ->
        TransferAsset id newOwner st = (Err e, st)).
Proof.
  intros G. split; [|split].
  - intros color size owner av D P.
    rewrite (CreateAsset_absent _ _ _ _ _ _ G D). apply (put_fail _ _ _ _ P).
  - intros color size owner av v D P.
    rewrite (UpdateAsset_present _ _ _ _ _ _ _ G D). apply (put_fail _ _ _ _ P).
  - intros newOwner data a D U P.
    rewrite (TransferAsset_present _ _ _ _ _ G D U). apply (put_fail _ _ _ _ P).
Qed.

Lemma put_failure_unchanged_witness :
  UpdateAsset "asset1" "red" 7 "Brad" 450 (readOnlyStub (StubError "unavailable"))
  = (Err (StubError "unavailable"), readOnlyStub (StubError "unavailable"))
  /\ TransferAsset "asset1" "Brad" (readOnlyStub (StubError "unavailable"))
     = (Err (StubError "unavailable"), readOnlyStub (StubError "unavailable")).
Proof.
  destruct (put_failure_unchanged (readOnlyStub (StubError "unavailable"))
              "asset1" (StubError "unavailable") eq_refl) as (_ & U & T).
  split.
  - apply (U "red" 7%Z "Brad" 450%Z
             (json.encodeAsset (mkAsset 300 "blue" "asset1" "Tomoko" 5)));
      [vm_compute; reflexivity|reflexivity].
  - apply (T "Brad" (json.encodeAsset (mkAsset 300 "blue" "asset1" "Tomoko" 5))
             (mkAsset 300 "blue" "asset1" "Tomoko" 5));
      [vm_compute; reflexivity|vm_compute; reflexivity|reflexivity].
Defined.

(** X13.  [DeleteAsset] on an id that has a value, when the read and the
    delete of the stub succeed, succeeds: afterwards the id has no value,
    [AssetExists] returns false for it and [ReadAsset] fails with the
    not-found error on it; the value of every other key is as it was.  When
    the delete of the stub fails, its error is returned as it is and the
    stub is as it was. *)
Theorem delete_existing st id v :
  getErr st id = None -> state st !! id = Some v ->
  (delErr st id = None ->
   exists st',
     DeleteAsset id st = (Ok tt, st')
     /\ state st' !! id = None
     /\ (forall k, k <> id -> state st' !! k = state st !! k)
     /\ AssetExists id st' = (Ok false, st')
     /\ ReadAsset id st'
        = (Err (Errorf "The asset with id %v does not exist" (OpString id)),
           st'))
  /\ (forall e, delErr st id = Some e -> DeleteAsset id st = (Err e, st)).
Proof.
  intros G D.
  assert (E : DeleteAsset id st = DelState id st).
  { unfold DeleteAsset.
    rewrite (bind_ok _ _ _ _ _ (AssetExists_ok st id G)), D. reflexivity. }
  split.
  - intros Hd. exists (with_state st (delete id (state st))).
    assert (L : state (with_state st (delete id (state st))) !! id = None)
      by apply lookup_delete_eq.
    split; [rewrite E; unfold DelState; now rewrite Hd|].
    split; [exact L|]. split; [|split].
    + intros k Hk. cbn [state with_state]. now apply lookup_delete_ne.
    + rewrite (AssetExists_ok (with_state st (delete id (state st))) id G).
      now rewrite L.
    + apply (ReadAsset_None (with_state st (delete id (state st))) id G L).
  - intros e Hd. rewrite E. unfold DelState. now rewrite Hd.
Qed.

Lemma delete_existing_witness :
  exists st',
    DeleteAsset "asset1" oneAssetStub = (Ok tt, st')
    /\ state st' !! "asset1" = None
    /\ AssetExists "asset1" st' = (Ok false, st').
Proof.
  destruct (delete_existing oneAssetStub "asset1"
              (json.encodeAsset (mkAsset 300 "blue" "asset1" "Tomoko" 5))
              eq_refl) as [H _]; [vm_compute; reflexivity|].
  destruct (H eq_refl) as (st' & H1 & H2 & _ & H4 & _).
  exists st'. split; [exact H1|]. split; [exact H2|exact H4].
Defined.


(** *** What a write touches *)

Lemma CreateAsset_Ok_full st st' id color size owner appraisedValue :
  CreateAsset id color size owner appraisedValue st = (Ok tt, st') ->
  getErr st id = None /\ state st !! id = None
  /\ putErr st id
       (json.encodeAsset (mkAsset appraisedValue color id owner size)) = None.
Proof.
  unfold CreateAsset, AssetExists, bind, on_error, GetState, ret, fail,
    of_json, json.Marshal, PutState.
  destruct (getErr st id); [discriminate|].
  destruct (state st !! id); [discriminate|].
  unfold ret; cbv beta iota.
  match goal with |- context [putErr st id ?x] =>
    destruct (putErr st id x) eqn:P end; [discriminate|]. now intros _.
Qed.

Lemma UpdateAsset_Ok_full st st' id color size owner appraisedValue :
  UpdateAsset id color size owner appraisedValue st = (Ok tt, st') ->
  getErr st id = None /\ (exists v, state st !! id = Some v)
  /\ putErr st id
       (json.encodeAsset (mkAsset appraisedValue color id owner size)) = None.
Proof.
  unfold UpdateAsset, AssetExists, bind, on_error, GetState, ret, fail,
    of_json, json.Marshal, PutState.
  destruct (getErr st id); [discriminate|].
  destruct (state st !! id) as [v|]; [|discriminate]. cbn [negb].
  unfold ret; cbv beta iota.
  match goal with |- context [putErr st id ?x] =>
    destruct (putErr st id x) eqn:P end; [discriminate|]. intros _. eauto.
Qed.

Lemma TransferAsset_Ok_full st st' id newOwner :
  TransferAsset id newOwner st = (Ok tt, st') ->
  exists data a, getErr st id = None /\ state st !! id = Some data
    /\ json.Unmarshal data = inl a
    /\ putErr st id (json.encodeAsset
         (mkAsset (AppraisedValue a) (Color a) (ID a) newOwner (Size a))) = None
    /\ st' = with_state st
         (<[id := json.encodeAsset
              (mkAsset (AppraisedValue a) (Color a) (ID a) newOwner (Size a))]>
            (state st)).
Proof.
  unfold TransferAsset, ReadAsset, bind, on_error, GetState, ret, fail.
  destruct (getErr st id); [discriminate|].
  destruct (state st !! id) as [data|]; [|discriminate].
  unfold of_json, json.Marshal, ret, fail, PutState.
  destruct (json.Unmarshal data) as [a|] eqn:U; [|discriminate].
  match goal with |- context [putErr st id ?x] =>
    destruct (putErr st id x) eqn:P end; [discriminate|]. intros [= <-].
  now exists data, a.
Qed.

(** X14.  [CreateAsset] never overwrites and writes one key: when it
    succeeds, the id had no value before, it now holds the encoding of the
    new asset, and the value of every other key is as it was. *)
Theorem create_writes_one_key st st' id color size owner appraisedValue :
  CreateAsset id color size owner appraisedValue st = (Ok tt, st') ->
  state st !! id = None
  /\ state st' !! id
     = Some (json.encodeAsset (mkAsset appraisedValue color id owner size))
  /\ (forall k, k <> id -> state st' !! k = state st !! k).
Proof.
  intros H. destruct (CreateAsset_Ok_full _ _ _ _ _ _ _ H) as (_ & D & _).
  apply CreateAsset_Ok in H. subst st'. cbn [state with_state].
  split; [exact D|]. split; [apply lookup_insert_eq|].
  intros k Hk. now apply lookup_insert_ne.
Qed.

Lemma create_writes_one_key_witness :
  state oneAssetStub !! "asset2" = None
  /\ state (snd (CreateAsset "asset2" "red" 5 "Brad" 400 oneAssetStub))
       !! "asset2"
     = Some (json.encodeAsset (mkAsset 400 "red" "asset2" "Brad" 5))
  /\ (forall k, k <> "asset2" ->
        state (snd (CreateAsset "asset2" "red" 5 "Brad" 400 oneAssetStub)) !! k
        = state oneAssetStub !! k).
Proof.
  apply (create_writes_one_key oneAssetStub _ "asset2" "red" 5 "Brad" 400).
  vm_compute. reflexivity.
Defined.

(** X15.  [UpdateAsset] never creates and writes one key: when it succeeds,
    the id had a value before, it now holds the encoding of the new asset,
    and the value of every other key is as it was. *)
Theorem update_writes_one_key st st' id color size owner appraisedValue :
  UpdateAsset id color size owner appraisedValue st = (Ok tt, st') ->
  (exists v, state st !! id = Some v)
  /\ state st' !! id
     = Some (json.encodeAsset (mkAsset appraisedValue color id owner size))
  /\ (forall k, k <> id -> state st' !! k = state st !! k).
Proof.
  intros H. destruct (UpdateAsset_Ok_full _ _ _ _ _ _ _ H) as (_ & D & _).
  apply UpdateAsset_Ok in H. subst st'. cbn [state with_state].
  split; [exact D|]. split; [apply lookup_insert_eq|].
  intros k Hk. now apply lookup_insert_ne.
Qed.

Lemma update_writes_one_key_witness :
  (exists v, state oneAssetStub !! "asset1" = Some v)
  /\ state (snd (UpdateAsset "asset1" "red" 7 "Brad" 450 oneAssetStub))
       !! "asset1"
     = Some (json.encodeAsset (mkAsset 450 "red" "asset1" "Brad" 7))
  /\ (forall k, k <> "asset1" ->
        state (snd (UpdateAsset "asset1" "red" 7 "Brad" 450 oneAssetStub)) !! k
        = state oneAssetStub !! k).
Proof.
  apply (update_writes_one_key oneAssetStub _ "asset1" "red" 7 "Brad" 450).
  vm_compute. reflexivity.
Defined.

(** X16.  When the read of the stub succeeds, [TransferAsset] on an id
    whose value does not decode fails with the error of [json.Unmarshal] as
    it is, and writes nothing. *)
Theorem transfer_undecodable st id newOwner data e :
  getErr st id = None -> state st !! id = Some data ->
  json.Unmarshal data = inr e ->
  TransferAsset id newOwner st = (Err (JsonError e), st).
Proof.
  intros G D U. unfold TransferAsset.
  apply bind_err. now rewrite (ReadAsset_Some _ _ _ G D), U.
Qed.

Lemma transfer_undecodable_witness :
  TransferAsset "asset1" "Brad" (singleStub "asset1" "[]")
  = (Err (JsonError (json.UnmarshalTypeError EmptyString)),
     singleStub "asset1" "[]").
Proof.
  apply (transfer_undecodable (singleStub "asset1" "[]") "asset1" "Brad" "[]");
    [reflexivity|vm_compute; reflexivity|vm_compute; reflexivity].
Defined.

(** X17.  [CreateAsset] followed by [DeleteAsset] of the same id, both
    successful, gives back the stub, the world state with it, as it was
    before the two. *)
Theorem create_then_delete st st1 st2 id color size owner appraisedValue :
  CreateAsset id color size owner appraisedValue st = (Ok tt, st1) ->
  DeleteAsset id st1 = (Ok tt, st2) ->
  st2 = st.
Proof.
  intros C D. destruct (CreateAsset_Ok_full _ _ _ _ _ _ _ C) as (_ & L & _).
  apply CreateAsset_Ok in C. subst st1. apply DeleteAsset_Ok in D. subst st2.
  rewrite with_state_twice. cbn [state with_state].
  rewrite delete_insert_eq, (delete_id _ _ L). apply with_state_same.
Qed.

Lemma create_then_delete_witness :
  snd (DeleteAsset "asset2"
         (snd (CreateAsset "asset2" "red" 5 "Brad" 400 oneAssetStub)))
  = oneAssetStub.
Proof.
  apply (create_then_delete oneAssetStub
           (snd (CreateAsset "asset2" "red" 5 "Brad" 400 oneAssetStub)) _
           "asset2" "red" 5 "Brad" 400); vm_compute; reflexivity.
Defined.


(** *** Repeated writes, and reads *)

Lemma ReadAsset_Ok st st' id a :
  ReadAsset id st = (Ok a, st') ->
  st' = st /\ exists data, state st !! id = Some data
    /\ json.Unmarshal data = inl a.
Proof.
  unfold ReadAsset, bind, on_error, GetState, fail.
  destruct (getErr st id); [discriminate|].
  destruct (state st !! id) as [data|]; [|discriminate].
  unfold of_json, ret, fail.
  destruct (json.Unmarshal data) as [a'|] eqn:U; [|discriminate].
  intros [= <- <-]. split; [reflexivity|]. now exists data.
Qed.

(** X18.  Two successful transfers of an asset in a row leave the stub as
    the second transfer alone does: the owner in between leaves no trace. *)
Theorem transfer_twice st st1 st2 id owner1 owner2 :
  TransferAsset id owner1 st = (Ok tt, st1) ->
  TransferAsset id owner2 st1 = (Ok tt, st2) ->
  TransferAsset id owner2 st = (Ok tt, st2).
Proof.
  intros T1 T2.
  destruct (TransferAsset_Ok_full _ _ _ _ T1) as (data & a & G & D & U & _ & ->).
  destruct (TransferAsset_Ok_full _ _ _ _ T2)
    as (data' & a' & _ & D' & U' & P & ->).
  cbn [state with_state] in D'. rewrite lookup_insert_eq in D'.
  injection D' as <-.
  destruct (Unmarshal_encodable _ _ U) as ((Hc & Hi & _) & Hv & Hs).
  rewrite Unmarshal_encodeAsset in U' by assumption. injection U' as <-.
  unfold coerce_asset in P |- *.
  cbn [AppraisedValue Color ID Owner Size putErr with_state state] in P |- *.
  rewrite (utf8_facts.valid_coerce _ Hc), (utf8_facts.valid_coerce _ Hi) in *.
  rewrite (TransferAsset_present _ _ _ _ _ G D U), (put_ok _ _ _ P).
  now rewrite insert_insert_eq.
Qed.

Lemma transfer_twice_witness :
  TransferAsset "asset1" "Max" oneAssetStub
  = (Ok tt,
     snd (TransferAsset "asset1" "Max"
            (snd (TransferAsset "asset1" "Brad" oneAssetStub)))).
Proof.
  apply (transfer_twice oneAssetStub
           (snd (TransferAsset "asset1" "Brad" oneAssetStub)) _
           "asset1" "Brad" "Max"); vm_compute; reflexivity.
Defined.

(** X19.  Two successful updates of an asset in a row leave the stub as
    the second update alone does. *)
Theorem update_twice st st1 st2 id color1 size1 owner1 value1
    color2 size2 owner2 value2 :
  UpdateAsset id color1 size1 owner1 value1 st = (Ok tt, st1) ->
  UpdateAsset id color2 size2 owner2 value2 st1 = (Ok tt, st2) ->
  UpdateAsset id color2 size2 owner2 value2 st = (Ok tt, st2).
Proof.
  intros U1 U2.
  destruct (UpdateAsset_Ok_full _ _ _ _ _ _ _ U1) as (G & [v D] & _).
  destruct (UpdateAsset_Ok_full _ _ _ _ _ _ _ U2) as (_ & _ & P).
  apply UpdateAsset_Ok in U1. subst st1. apply UpdateAsset_Ok in U2. subst st2.
  cbn [putErr with_state state] in P |- *.
  rewrite (UpdateAsset_present _ _ _ _ _ _ _ G D), (put_ok _ _ _ P).
  now rewrite insert_insert_eq.
Qed.

Lemma update_twice_witness :
  UpdateAsset "asset1" "green" 9 "Max" 470 oneAssetStub
  = (Ok tt,
     snd (UpdateAsset "asset1" "green" 9 "Max" 470
            (snd (UpdateAsset "asset1" "red" 7 "Brad" 450 oneAssetStub)))).
Proof.
  apply (update_twice oneAssetStub
           (snd (UpdateAsset "asset1" "red" 7 "Brad" 450 oneAssetStub)) _
           "asset1" "red" 7 "Brad" 450 "green" 9 "Max" 470);
    vm_compute; reflexivity.
Defined.

(** X20.  Every asset that [ReadAsset] returns has well-formed UTF-8
    strings and numbers that are values of [int], and is a fixed point of
    the encoding: [json.Marshal] and then [json.Unmarshal] give it back as
    it is. *)
Theorem read_returns_encodable st st' id a :
  ReadAsset id st = (Ok a, st') ->
  valid_asset a /\ is_int (AppraisedValue a) /\ is_int (Size a)
  /\ json.Unmarshal (json.encodeAsset a) = inl a.
Proof.
  intros H. destruct (ReadAsset_Ok _ _ _ _ H) as (_ & data & _ & U).
  pose proof (Unmarshal_encodable _ _ U) as E.
  destruct E as (V & Hv & Hs). split; [exact V|]. split; [exact Hv|].
  split; [exact Hs|]. apply Unmarshal_Marshal. now split.
Qed.

Lemma read_returns_encodable_witness :
  valid_asset (mkAsset 0 utf8.replacement "asset1" EmptyString 0)
  /\ json.Unmarshal
       (json.encodeAsset (mkAsset 0 utf8.replacement "asset1" EmptyString 0))
     = inl (mkAsset 0 utf8.replacement "asset1" EmptyString 0).
Proof.
  destruct (read_returns_encodable
              (singleStub "asset1"
                 ("{" ++ json.appendString "ID" ++ ":"
                  ++ json.appendString "asset1" ++ ","
                  ++ json.appendString "Color" ++ ":"
                  ++ String json.dquote (invalidString
                       ++ String json.dquote "}")))
              (singleStub "asset1"
                 ("{" ++ json.appendString "ID" ++ ":"
                  ++ json.appendString "asset1" ++ ","
                  ++ json.appendString "Color" ++ ":"
                  ++ String json.dquote (invalidString
                       ++ String json.dquote "}")))
              "asset1" (mkAsset 0 utf8.replacement "asset1" EmptyString 0))
    as (V & _ & _ & R); [vm_compute; reflexivity|].
  split; [exact V|exact R].
Defined.

(** X21.  The encoding is injective on the assets that can be read back:
    two assets with well-formed UTF-8 strings and [int] numbers that
    [json.Marshal] encodes alike are the same asset. *)
Theorem Marshal_injective a b :
  encodable a -> encodable b -> json.Marshal a = json.Marshal b -> a = b.
Proof.
  intros Ha Hb E.
  assert (E' : json.encodeAsset a = json.encodeAsset b)
    by (unfold json.Marshal in E; congruence).
  pose proof (Unmarshal_Marshal a Ha) as Ua.
  rewrite E', (Unmarshal_Marshal b Hb) in Ua. now injection Ua.
Qed.

Lemma Marshal_injective_witness :
  mkAsset 300 "blue" "asset1" "Tomoko" 5 = mkAsset 300 "blue" "asset1" "Tomoko" 5.
Proof.
  apply (Marshal_injective (mkAsset 300 "blue" "asset1" "Tomoko" 5)
           (mkAsset 300 "blue" "asset1" "Tomoko" 5));
    try reflexivity;
    (split; [repeat split; reflexivity|split; apply is_int_small; cbn; lia]).
Defined.


Lemma putAssets_Err l : forall st e st',
  putAssets l st = (Err e, st') ->
  exists e0 a, In a l /\ putErr st (ID a) (json.encodeAsset a) = Some e0
    /\ e = Errorf "Failed to put to world state. %v" (OpError e0).
Proof.
  induction l as [|a l IH]; intros st e st' H; [discriminate|].
  cbn [putAssets] in H. unfold bind at 1, of_json, json.Marshal, ret in H.
  unfold bind, on_error, PutState in H.
  destruct (putErr st (ID a) (json.encodeAsset a)) as [e0|] eqn:P.
  - injection H as <- _. exists e0, a. split; [now left|now split].
  - destruct (IH _ _ _ H) as (e0 & b & Hb & Pb & ->).
    exists e0, b. split; [now right|now split].
Qed.

(** X22.  [InitLedger] reads nothing and checks nothing: it succeeds
    exactly when the six puts succeed, whatever the world state holds and
    whether or not reads would fail; the only error it returns is the one
    made from the error of a put of one of the six assets. *)
Theorem init_outcome st :
  (puts_ok st seedAssets
   <-> InitLedger st = (Ok tt, with_state st (put_all seedAssets (state st))))
  /\ (forall e st', InitLedger st = (Err e, st') ->
        exists e0 a, In a seedAssets
          /\ putErr st (ID a) (json.encodeAsset a) = Some e0
          /\ e = Errorf "Failed to put to world state. %v" (OpError e0)).
Proof.
  unfold InitLedger. split; [split|].
  - apply putAssets_run.
  - apply putAssets_Ok.
  - apply putAssets_Err.
Qed.

(** X23.  When the point read succeeds, [ReadAsset] fails with the
    not-found error exactly when [AssetExists] returns false: a value that
    does not decode still counts as an asset that exists. *)
Theorem not_found_iff_not_exists st id :
  getErr st id = None ->
  (AssetExists id st = (Ok false, st)
   <-> ReadAsset id st
       = (Err (Errorf "The asset with id %v does not exist" (OpString id)), st)).
Proof.
  intros G. rewrite (AssetExists_ok _ _ G).
  destruct (state st !! id) as [data|] eqn:D.
  - rewrite (ReadAsset_Some _ _ _ G D).
    split; [discriminate|]. now destruct (json.Unmarshal data).
  - rewrite (ReadAsset_None _ _ G D). split; reflexivity.
Qed.

Lemma not_found_iff_not_exists_witness :
  AssetExists "asset9" oneAssetStub = (Ok false, oneAssetStub)
  <-> ReadAsset "asset9" oneAssetStub
      = (Err (Errorf "The asset with id %v does not exist" (OpString "asset9")),
         oneAssetStub).
Proof. apply (not_found_iff_not_exists oneAssetStub "asset9"). reflexivity. Defined.

(** X24.  Every asset that [ReadAsset] returns for a simple key is among
    the assets that [GetAllAssets] returns on the same stub. *)
Theorem read_is_listed st st1 st2 id a assets :
  String.leb emptyKeySubstitute id = true ->
  ReadAsset id st = (Ok a, st1) ->
  GetAllAssets st = (Ok assets, st2) ->
  In a assets.
Proof.
  intros Hk R G. destruct (ReadAsset_Ok _ _ _ _ R) as (_ & data & D & U).
  exact (GetAllAssets_holds _ _ _ _ _ _ G D Hk U).
Qed.

Lemma read_is_listed_witness :
  In (mkAsset 500 "green" "asset3" "Jin Soo" 10) seedAssets.
Proof.
  apply (read_is_listed seededStub seededStub seededStub "asset3");
    [reflexivity|vm_compute; reflexivity|vm_compute; reflexivity].
Defined.


(** *** What is written is well formed *)

Lemma valid_app2 a b :
  utf8.valid a = true -> utf8.valid b = true -> utf8.valid (a ++ b) = true.
Proof. intros Ha Hb. now rewrite (utf8_facts.valid_app a Ha). Qed.

Lemma valid_escape_ascii c :
  utf8.is_ascii c = true -> utf8.valid (json.escape_ascii c) = true.
Proof.
  intros H. destruct c as [[] [] [] [] [] [] [] []];
    try discriminate H; vm_compute; reflexivity.
Qed.

Lemma valid_appendString_body s : utf8.valid (json.appendString_body s) = true.
Proof.
  induction s as [|c r E IH|c c1 r E IH|c c1 c2 r E IH|c c1 c2 c3 r E IH|c r E IH]
    using utf8_facts.rune_ind.
  - reflexivity.
  - pose proof (utf8_facts.rune_len_1 _ _ E) as A.
    rewrite (appendString_body_ascii _ _ A).
    apply valid_app2; [now apply valid_escape_ascii|exact IH].
  - destruct (utf8_facts.rune_len_2 _ _ E) as (A & _).
    rewrite (appendString_body_nonascii _ _ A), E.
    now rewrite (utf8_facts.valid_2 _ _ _ (utf8_facts.rune_len_2_tail _ _ _ _ E)).
  - destruct (utf8_facts.rune_len_3 _ _ E) as (A & _).
    rewrite (appendString_body_nonascii _ _ A), E.
    destruct ((utf8.byte_val c =? 226) && (utf8.byte_val c1 =? 128)
            && ((utf8.byte_val c2 =? 168) || (utf8.byte_val c2 =? 169)))%N eqn:U.
    + apply andb_prop in U as [U U2]. apply andb_prop in U as [U0 U1].
      apply byte_val_inj in U0, U1. subst c c1.
      apply orb_prop in U2 as [U2|U2]; apply byte_val_inj in U2; subst c2;
        now rewrite !utf8_facts.valid_1 by reflexivity.
    + now rewrite (utf8_facts.valid_3 _ _ _ _
                     (utf8_facts.rune_len_3_tail _ _ _ _ _ E)).
  - destruct (utf8_facts.rune_len_4 _ _ E) as (A & _).
    rewrite (appendString_body_nonascii _ _ A), E.
    now rewrite (utf8_facts.valid_4 _ _ _ _ _
                   (utf8_facts.rune_len_4_tail _ _ _ _ _ _ E)).
  - destruct (utf8_facts.rune_len_None _ _ E) as (A & _).
    rewrite (appendString_body_nonascii _ _ A), E.
    apply valid_app2; [reflexivity|exact IH].
Qed.

Lemma valid_appendString s : utf8.valid (json.appendString s) = true.
Proof.
  unfold json.appendString. rewrite utf8_facts.valid_1 by reflexivity.
  apply valid_app2; [apply valid_appendString_body|reflexivity].
Qed.

Lemma valid_string_of_uint u : utf8.valid (NilEmpty.string_of_uint u) = true.
Proof.
  induction u; cbn [NilEmpty.string_of_uint]; [reflexivity|..];
    now rewrite utf8_facts.valid_1 by reflexivity.
Qed.

Lemma valid_appendInt z : utf8.valid (json.appendInt z) = true.
Proof.
  unfold json.appendInt.
  destruct z as [|p|p]; cbn [Z.to_int NilEmpty.string_of_int];
    [reflexivity|apply valid_string_of_uint|].
  rewrite utf8_facts.valid_1 by reflexivity. apply valid_string_of_uint.
Qed.

Lemma valid_encodeAsset a : utf8.valid (json.encodeAsset a) = true.
Proof.
  unfold json.encodeAsset.
  repeat (apply valid_app2;
          [first [apply valid_appendString|apply valid_appendInt|reflexivity]|]).
  reflexivity.
Qed.

Lemma all_valid_insert m k a :
  all_valid m -> all_valid (<[k := json.encodeAsset a]> m).
Proof.
  intros H k' v L. apply lookup_insert_Some in L as [[_ <-]|[_ L]].
  - apply valid_encodeAsset.
  - exact (H _ _ L).
Qed.

Lemma all_valid_put_all l : forall m, all_valid m -> all_valid (put_all l m).
Proof.
  induction l as [|a l IH]; intros m H; [exact H|].
  cbn [put_all fold_left]. apply IH. now apply all_valid_insert.
Qed.

(** X25.  Whatever bytes the arguments hold, the calls write well-formed
    UTF-8 only: if every value of the world state is well-formed UTF-8,
    this is still so after [InitLedger], [CreateAsset], [UpdateAsset],
    [DeleteAsset] or [TransferAsset] succeeds. *)
Theorem writes_are_utf8 st st' :
  all_valid (state st) ->
  (InitLedger st = (Ok tt, st') -> all_valid (state st'))
  /\ (forall id color size owner appraisedValue,
        CreateAsset id color size owner appraisedValue st = (Ok tt, st') ->
        all_valid (state st'))
  /\ (forall id color size owner appraisedValue,
        UpdateAsset id color size owner appraisedValue st = (Ok tt, st') ->
        all_valid (state st'))
  /\ (forall id, DeleteAsset id st = (Ok tt, st') -> all_valid (state st'))
  /\ (forall id newOwner,
        TransferAsset id newOwner st = (Ok tt, st') -> all_valid (state st')).
Proof.
  intros A. split; [|split; [|split; [|split]]].
  - unfold InitLedger. intros H. pose proof (putAssets_Ok _ _ _ H) as P.
    rewrite (putAssets_run _ _ P) in H.
    apply (f_equal snd) in H. cbn [snd] in H. subst st'.
    cbn [state with_state]. now apply all_valid_put_all.
  - intros id color size owner av H.
    rewrite (CreateAsset_Ok _ _ _ _ _ _ _ H). now apply all_valid_insert.
  - intros id color size owner av H.
    rewrite (UpdateAsset_Ok _ _ _ _ _ _ _ H). now apply all_valid_insert.
  - intros id H. rewrite (DeleteAsset_Ok _ _ _ H). cbn [state with_state].
    intros k v L. apply lookup_delete_Some in L as [_ L]. exact (A _ _ L).
  - intros id newOwner H.
    destruct (TransferAsset_Ok _ _ _ _ H) as (data & a & _ & _ & ->).
    now apply all_valid_insert.
Qed.

Lemma writes_are_utf8_witness :
  all_valid
    (state (snd (CreateAsset "asset2" invalidString 5 invalidString 400
                   oneAssetStub))).
Proof.
  refine (proj1 (proj2 (writes_are_utf8 oneAssetStub _ _))
            "asset2" invalidString 5%Z invalidString 400%Z _).
  - intros k v L. unfold oneAssetStub in L. cbn [state with_state] in L.
    apply lookup_insert_Some in L as [[_ <-]|[_ L]];
      [vm_compute; reflexivity|].
    rewrite lookup_empty in L. discriminate.
  - vm_compute. reflexivity.
Defined.


Lemma all_decode_insert m k a :
  is_int (AppraisedValue a) -> is_int (Size a) ->
  all_decode m -> all_decode (<[k := json.encodeAsset a]> m).
Proof.
  intros Hv Hs H k' v L. apply lookup_insert_Some in L as [[_ <-]|[_ L]].
  - exists (coerce_asset a). now apply Unmarshal_encodeAsset.
  - exact (H _ _ L).
Qed.

(** X26.  Whatever bytes the string arguments hold, the calls keep the
    world state readable: if every value of the world state decodes to an
    asset, this is still so after [InitLedger], [CreateAsset],
    [UpdateAsset], [DeleteAsset] or [TransferAsset] succeeds. *)
Theorem writes_are_decodable st st' :
  all_decode (state st) ->
  (InitLedger st = (Ok tt, st') -> all_decode (state st'))
  /\ (forall id color size owner appraisedValue,
        is_int size -> is_int appraisedValue ->
        CreateAsset id color size owner appraisedValue st = (Ok tt, st') ->
        all_decode (state st'))
  /\ (forall id color size owner appraisedValue,
        is_int size -> is_int appraisedValue ->
        UpdateAsset id color size owner appraisedValue st = (Ok tt, st') ->
        all_decode (state st'))
  /\ (forall id, DeleteAsset id st = (Ok tt, st') -> all_decode (state st'))
  /\ (forall id newOwner,
        TransferAsset id newOwner st = (Ok tt, st') -> all_decode (state st')).
Proof.
  intros A. split; [|split; [|split; [|split]]].
  - unfold InitLedger. intros H. pose proof (putAssets_Ok _ _ _ H) as P.
    rewrite (putAssets_run _ _ P) in H.
    apply (f_equal snd) in H. cbn [snd] in H. subst st'.
    cbn [state with_state]. intros k v L.
    destruct (decide (In k (map ID seedAssets))) as [Hin|Hout].
    + apply in_map_iff in Hin as (a & <- & Ha). exists a.
      assert (E : put_all seedAssets (state st) !! ID a
                  = Some (json.encodeAsset a)).
      { clear L.
        repeat (destruct Ha as [<-|Ha];
                [cbn [put_all fold_left seedAssets ID];
                 repeat (rewrite lookup_insert_ne by discriminate);
                 apply lookup_insert_eq|]).
        destruct Ha. }
      rewrite E in L. injection L as <-. now apply seed_decodes.
    + rewrite put_all_other in L; [exact (A _ _ L)|].
      intros a Ha E. apply Hout. rewrite <- E. now apply in_map.
  - intros id color size owner av Hs Hv H.
    rewrite (CreateAsset_Ok _ _ _ _ _ _ _ H). now apply all_decode_insert.
  - intros id color size owner av Hs Hv H.
    rewrite (UpdateAsset_Ok _ _ _ _ _ _ _ H). now apply all_decode_insert.
  - intros id H. rewrite (DeleteAsset_Ok _ _ _ H). cbn [state with_state].
    intros k v L. apply lookup_delete_Some in L as [_ L]. exact (A _ _ L).
  - intros id newOwner H.
    destruct (TransferAsset_Ok _ _ _ _ H) as (data & a & _ & U & ->).
    destruct (Unmarshal_encodable _ _ U) as (_ & Hv & Hs).
    now apply all_decode_insert.
Qed.

Lemma writes_are_decodable_witness :
  all_decode
    (state (snd (CreateAsset invalidString invalidString 5 invalidString 400
                   oneAssetStub))).
Proof.
  refine (proj1 (proj2 (writes_are_decodable oneAssetStub _ _))
            invalidString invalidString 5%Z invalidString 400%Z
            (is_int_small 5 ltac:(lia)) (is_int_small 400 ltac:(lia)) _).
  - intros k v L. unfold oneAssetStub in L. cbn [state with_state] in L.
    apply lookup_insert_Some in L as [[_ <-]|[_ L]];
      [eexists; vm_compute; reflexivity|].
    rewrite lookup_empty in L. discriminate.
  - vm_compute. reflexivity.
Defined.

End ledger_facts.
